(** * ProtDMMValidation (dmm/protocols/protocol_dmm.py): a shallow embedding

    The protocol prepares a density map, runs the external DMM predictor,
    relocates its output, parses the per-residue scores out of the
    fixed-column file the predictor writes and sets out to merge them
    into the structure's low-level dictionary.

    Python [str] values are modelled as [string]; a character of the model
    is a code point below 256.  Python dictionaries keyed by strings are
    [gmap string _]. *)

From Stdlib Require Import Ascii String List ZArith Lia Bool DecimalString DecimalNat.
From stdpp Require Import base option gmap strings list fin_maps.

Local Open Scope string_scope.

(** ** Python string primitives used by the protocol *)

Module Py.

(** Exceptions the modelled code can raise. *)
Inductive exn : Type :=
| IndexError
| FileNotFoundError (path : string)
| FileExistsError (path : string)
| NotADirectoryError (path : string)
| IsADirectoryError (path : string)
| SameFileError (path : string)
| CalledProcessError (code : Z)
| AttributeError (name : string)
| ToolError (what : string).

Inductive result (A : Type) : Type :=
| Ok (a : A)
| Raise (e : exn).
Arguments Ok {A} a.
Arguments Raise {A} e.

(** [str.isspace] on one character, restricted to code points below 256:
    TAB..CR, FS..US, SPACE, NEL and NBSP. *)
Definition is_space (c : ascii) : bool :=
  let n := nat_of_ascii c in
  (((9 <=? n) && (n <=? 13)) || ((28 <=? n) && (n <=? 32))
   || (n =? 133) || (n =? 160))%nat.

Fixpoint lstrip (s : string) : string :=
  match s with
  | EmptyString => EmptyString
  | String c s' => if is_space c then lstrip s' else s
  end.

Fixpoint rstrip (s : string) : string :=
  match s with
  | EmptyString => EmptyString
  | String c s' =>
      match rstrip s' with
      | EmptyString => if is_space c then EmptyString else String c EmptyString
      | r => String c r
      end
  end.

(** [s.strip()] *)
Definition strip (s : string) : string := rstrip (lstrip s).

(** [s.startswith(p)] *)
Fixpoint startswith (s p : string) {struct p} : bool :=
  match p, s with
  | EmptyString, _ => true
  | String a p', String b s' => Ascii.eqb a b && startswith s' p'
  | String _ _, EmptyString => false
  end.

(** [sub in s] *)
Fixpoint contains (sub s : string) : bool :=
  startswith s sub ||
  match s with
  | EmptyString => false
  | String _ s' => contains sub s'
  end.

(** [s[i]] for a non-negative literal index: [IndexError] past the end. *)
Definition index (s : string) (i : nat) : result ascii :=
  match String.get i s with
  | Some c => Ok c
  | None => Raise IndexError
  end.

(** [s[i:j]] for non-negative literal bounds: clipped, never an error. *)
Definition slice (s : string) (i j : nat) : string :=
  String.substring i (j - i) s.

Definition LF : ascii := "010"%char.
Definition CR : ascii := "013"%char.

(** The lines a file opened in text mode yields when iterated: a line
    ends after each newline (["\n"], ["\r\n"] or ["\r"], all read as
    ["\n"]) and keeps it; the last line may lack one. *)
Fixpoint lines_from (cur : string) (s : string) : list string :=
  match s with
  | EmptyString => match cur with EmptyString => [] | _ => [cur] end
  | String c s' =>
      if Ascii.eqb c LF
      then (cur ++ String LF EmptyString) :: lines_from EmptyString s'
      else if Ascii.eqb c CR
      then match s' with
           | String c' s'' =>
               if Ascii.eqb c' LF
               then (cur ++ String LF EmptyString) :: lines_from EmptyString s''
               else (cur ++ String LF EmptyString) :: lines_from EmptyString s'
           | EmptyString => [cur ++ String LF EmptyString]
           end
      else lines_from (cur ++ String c EmptyString) s'
  end.

Definition readlines (content : string) : list string :=
  lines_from EmptyString content.

(** [str(n)] for a non-negative integer. *)
Definition str_nat (n : nat) : string :=
  NilZero.string_of_uint (Nat.to_uint n).

End Py.

Import Py.

(** ** The score-file parser *)

(** [line.startswith('ATOM') or line.startswith('HETATM')] *)
Definition is_record (line : string) : bool :=
  startswith line "ATOM" || startswith line "HETATM".

(** ['{}:{}'.format(line[21].strip(), line[22:26].strip())] *)
Definition resId_of (line : string) : result string :=
  match index line 21 with
  | Raise e => Raise e
  | Ok c => Ok (strip (String c EmptyString) ++ ":" ++ strip (slice line 22 26))
  end.

(** [line[60:66].strip()] *)
Definition score_of (line : string) : string := strip (slice line 60 66).

(** One iteration of the loop body of [parseDMMScores]. *)
Definition parse_line (DMMDic : gmap string string) (line : string)
  : result (gmap string string) :=
  if is_record line then
    match resId_of line with
    | Raise e => Raise e
    | Ok resId =>
        match DMMDic !! resId with
        | Some _ => Ok DMMDic
        | None => Ok (<[resId := score_of line]> DMMDic)
        end
    end
  else Ok DMMDic.

(** The [for line in f] loop, from a dictionary built so far. *)
Fixpoint parse_lines (DMMDic : gmap string string) (lines : list string)
  : result (gmap string string) :=
  match lines with
  | [] => Ok DMMDic
  | line :: rest =>
      match parse_line DMMDic line with
      | Raise e => Raise e
      | Ok d => parse_lines d rest
      end
  end.

(** A line the loop body gets through: not a record line, or long enough
    for [line[21]]. *)
Definition readable_line (line : string) : bool :=
  negb (is_record line) || (21 <? String.length line)%nat.

(** [parseDMMScores] on the lines of the opened file. *)
Definition parseDMMScores_lines (lines : list string) : result (gmap string string) :=
  parse_lines ∅ lines.

(** ** posixpath: the path functions the protocol calls *)

Module PosixPath.

Definition sep : ascii := "/"%char.

(** [s.split('/')] *)
Fixpoint split (s : string) : list string :=
  match s with
  | EmptyString => [EmptyString]
  | String c s' =>
      if Ascii.eqb c sep then EmptyString :: split s'
      else match split s' with
           | h :: t => String c h :: t
           | [] => [String c EmptyString]
           end
  end.

(** ['/'.join(comps)] *)
Fixpoint join_sep (comps : list string) : string :=
  match comps with
  | [] => EmptyString
  | [c] => c
  | c :: rest => c ++ "/" ++ join_sep rest
  end.

Definition isabs (p : string) : bool := startswith p "/".

(** [s.endswith('/')] *)
Fixpoint endswith_sep (s : string) : bool :=
  match s with
  | EmptyString => false
  | String c EmptyString => Ascii.eqb c sep
  | String _ s' => endswith_sep s'
  end.

(** [os.path.join(a, b)] *)
Definition join (a b : string) : string :=
  if startswith b "/" then b
  else if String.eqb a "" || endswith_sep a then a ++ b
  else a ++ "/" ++ b.

(** [os.path.join(a, b, c)] *)
Definition join3 (a b c : string) : string := join (join a b) c.

Definition initial_slashes (p : string) : nat :=
  if startswith p "/"
  then if startswith p "//" && negb (startswith p "///") then 2 else 1
  else 0.

(** One iteration of the loop of [normpath]; [new_comps] is kept
    reversed, so that its head is [new_comps[-1]]. *)
Definition norm_step (rooted : bool) (new_comps : list string) (comp : string)
  : list string :=
  if String.eqb comp "" || String.eqb comp "." then new_comps
  else if negb (String.eqb comp "..")
          || (negb rooted && match new_comps with [] => true | _ => false end)
          || match new_comps with c :: _ => String.eqb c ".." | [] => false end
       then comp :: new_comps
       else match new_comps with _ :: r => r | [] => [] end.

Definition norm_comps (p : string) : list string :=
  rev (fold_left (norm_step (0 <? initial_slashes p)%nat) (split p) []).

Fixpoint slashes (n : nat) : string :=
  match n with O => EmptyString | S k => String sep (slashes k) end.

(** [os.path.normpath(p)] *)
Definition normpath (p : string) : string :=
  if String.eqb p "" then "."
  else
    let path := slashes (initial_slashes p) ++ join_sep (norm_comps p) in
    if String.eqb path "" then "." else path.

(** The path [abspath] normalises: [p] itself when absolute, else
    [join(os.getcwd(), p)]. *)
Definition anchored (cwd p : string) : string :=
  if isabs p then p else join cwd p.

(** [os.path.abspath(p)] in a process whose working directory is [cwd]. *)
Definition abspath (cwd p : string) : string := normpath (anchored cwd p).

(** [os.path.basename(p)]: what follows the last separator. *)
Definition basename (p : string) : string := List.last (split p) EmptyString.

(** Split a file name at its last dot. *)
Fixpoint rsplit_dot (s : string) : option (string * string) :=
  match s with
  | EmptyString => None
  | String c s' =>
      match rsplit_dot s' with
      | Some (r, e) => Some (String c r, e)
      | None => if Ascii.eqb c "."%char then Some (EmptyString, s) else None
      end
  end.

Fixpoint all_dots (s : string) : bool :=
  match s with
  | EmptyString => true
  | String c s' => Ascii.eqb c "."%char && all_dots s'
  end.

(** [splitext] on a name without separator: the extension starts at the
    last dot, unless only dots precede it. *)
Definition splitext_name (b : string) : string * string :=
  match rsplit_dot b with
  | Some (r, e) => if all_dots r then (b, EmptyString) else (r, e)
  | None => (b, EmptyString)
  end.

(** [os.path.splitext(p)[0]] *)
Fixpoint splitext_root (p : string) : string :=
  match p with
  | EmptyString => EmptyString
  | String c s' =>
      if Ascii.eqb c sep || contains "/" s' then String c (splitext_root s')
      else fst (splitext_name p)
  end.

(** *** Vocabulary for reasoning about paths *)

(** [new_comps] when the loop of [normpath] ends, last component first. *)
Definition stack (p : string) : list string :=
  fold_left (norm_step (isabs p)) (split p) [].

Fixpoint no_sep (c : string) : bool :=
  match c with
  | EmptyString => true
  | String x c' => negb (Ascii.eqb x sep) && no_sep c'
  end.

(** A component that [normpath] keeps as it is. *)
Definition proper (c : string) : bool :=
  no_sep c && negb (String.eqb c "") && negb (String.eqb c ".")
  && negb (String.eqb c "..").

End PosixPath.

(** ** The file system, as the protocol's file operations see it

    A location is the list of components of a normalised absolute path;
    symbolic links and file metadata are not modelled.  The operations
    follow the documented behaviour of [open] and [shutil]. *)

Module FS.

Definition loc := list string.

Inductive node : Type :=
| File (content : string)
| Dir.

Definition t := loc -> option node.

(** The location a path string denotes in a process whose working
    directory is [cwd]. *)
Definition resolve (cwd p : string) : loc :=
  PosixPath.norm_comps (PosixPath.anchored cwd p).

(** [strip_prefix d p = Some r] when [p = d ++ r]. *)
Fixpoint strip_prefix (d p : loc) : option loc :=
  match d, p with
  | [], _ => Some p
  | x :: d', y :: p' => if String.eqb x y then strip_prefix d' p' else None
  | _ :: _, [] => None
  end.

(** [p] is [d] or lies below it. *)
Definition under (d p : loc) : bool :=
  match strip_prefix d p with Some _ => true | None => false end.

(** [os.path.exists] *)
Definition exists_ (fs : t) (p : loc) : bool :=
  match fs p with Some _ => true | None => false end.

Definition parent (p : loc) : loc := removelast p.

(** The proper ancestors of [p] below the root, outermost first. *)
Fixpoint ancestors (p : loc) : list loc :=
  match p with
  | [] => []
  | [_] => []
  | x :: p' => [x] :: map (cons x) (ancestors p')
  end.

Definition write (fs : t) (p : loc) (n : node) : t :=
  fun q => if decide (q = p) then Some n else fs q.

Definition is_file (o : option node) : bool :=
  match o with Some (File _) => true | _ => false end.

(** [q] is a proper ancestor of [p]. *)
Definition above (q p : loc) : bool :=
  match strip_prefix q p with Some (_ :: _) => true | _ => false end.

(** [open(name).read()]; [name] is the path string the caller used, kept
    for the exception. *)
Definition read_file (fs : t) (name : string) (p : loc) : result string :=
  match fs p with
  | Some (File c) => Ok c
  | Some Dir => Raise (IsADirectoryError name)
  | None => Raise (FileNotFoundError name)
  end.

(** [open(name, 'w')] followed by writing [content] and closing. *)
Definition write_file (fs : t) (name : string) (p : loc) (content : string)
  : result t :=
  match fs p with
  | Some Dir => Raise (IsADirectoryError name)
  | _ =>
      match p, fs (parent p) with
      | [], _ => Raise (IsADirectoryError name)
      | [_], _ | _, Some Dir => Ok (write fs p (File content))
      | _, Some (File _) => Raise (NotADirectoryError name)
      | _, None => Raise (FileNotFoundError name)
      end
  end.

(** [shutil.copyfile(src, dst)] *)
Definition copyfile (fs : t) (src_name : string) (src : loc)
    (dst_name : string) (dst : loc) : result t :=
  if decide (src = dst) then
    match fs src with
    | Some _ => Raise (SameFileError src_name)
    | None => Raise (FileNotFoundError src_name)
    end
  else
    match read_file fs src_name src with
    | Raise e => Raise e
    | Ok c => write_file fs dst_name dst c
    end.

(** [shutil.copytree(src, dst)] with its default arguments: [src] must be
    a directory, [dst] must not exist; the missing ancestors of [dst] are
    created and the whole tree below [src] is reproduced below [dst].
    The tree is the one present when the call starts, which is what the
    library does when [dst] is not inside [src]. *)
Definition copytree (fs : t) (src_name : string) (src : loc)
    (dst_name : string) (dst : loc) : result t :=
  match fs src with
  | None => Raise (FileNotFoundError src_name)
  | Some (File _) => Raise (NotADirectoryError src_name)
  | Some Dir =>
      if exists_ fs dst then Raise (FileExistsError dst_name)
      else if existsb (fun a => is_file (fs a)) (ancestors dst)
      then Raise (NotADirectoryError dst_name)
      else Ok (fun q =>
                 match strip_prefix dst q with
                 | Some r => fs (src ++ r)%list
                 | None =>
                     if above q dst
                     then match fs q with None => Some Dir | o => o end
                     else fs q
                 end)
  end.

(** [shutil.rmtree(path)]: [path] must be a directory; it goes away with
    everything below it. *)
Definition rmtree (fs : t) (name : string) (p : loc) : result t :=
  match fs p with
  | None => Raise (FileNotFoundError name)
  | Some (File _) => Raise (NotADirectoryError name)
  | Some Dir => Ok (fun q => if under p q then None else fs q)
  end.

End FS.

(** ** The host: workflow engine, image library, plugin and operating system *)

(** [Ccp4Header.START] and [Ccp4Header.ORIGIN] *)
Inductive fix_mode : Type := START | ORIGIN.

(** Modelled from the spec: the low-level dictionary of a structural file
    ([AtomicStructHandler.readLowLevel], not part of this repository), seen
    through what the merge needs: the residue keys [chain:residue] of the
    file's own chain and residue columns, and its attribute categories,
    each with rows indexed by residue key. *)
Record CifDic : Type := {
  cif_residues : list string;
  cif_attributes : gmap string (gmap string string)
}.

(** What the protocol asks of the world outside the interpreter; [R] is the
    type of Python floats. *)
Inductive call (R : Type) : Type :=
| Stdout (text : string)
| ImageConvert (src dst : string)
| FixFile (src dst : string) (shifts : R * R * R) (sampling : R) (mode : fix_mode)
| RunJob (program args cwd : string)
| ToCIF (src dst : string)
| WriteLowLevel (path : string) (dic : CifDic)
| RunChimeraProgram (program script cwd : string)
| Sleep (seconds : nat).
Arguments Stdout {R} text.
Arguments ImageConvert {R} src dst.
Arguments FixFile {R} src dst shifts sampling mode.
Arguments RunJob {R} program args cwd.
Arguments ToCIF {R} src dst.
Arguments WriteLowLevel {R} path dic.
Arguments RunChimeraProgram {R} program script cwd.
Arguments Sleep {R} seconds.

Class Host : Type := {
  (** Python floats: only formatted and compared, never computed with. *)
  Real : Type;
  str_float : Real -> string;
  float_eqb : Real -> Real -> bool;
  float_one : Real;
  (** [os.getcwd()] *)
  getcwd : string;
  (** [Plugin._DMMBinary], [Plugin.getCondaActivationCmd()],
      [Plugin.getProtocolActivationCommand(name)] *)
  Plugin_DMMBinary : string;
  Plugin_getCondaActivationCmd : string;
  Plugin_getProtocolActivationCommand : string -> string;
  (** [Chimera.getHome()], [Chimera.getProgram()] *)
  Chimera_getHome : string;
  Chimera_getProgram : string;
  (** whether [from chimera import Plugin] succeeds, and
      [chimeraPlugin.getProgram()] *)
  chimera_importable : bool;
  chimeraPlugin_getProgram : string;
  (** [os.getcwd()] is an absolute path *)
  getcwd_isabs : PosixPath.isabs getcwd = true;
  (** What a call to an external tool does, after the calls made so far:
      the exception it raises, if any, the exit code of a subprocess, and
      the file system it leaves.  While the interpreter sleeps, other
      processes go on writing. *)
  tool_raises : list (call Real) -> call Real -> FS.t -> option exn;
  exit_code : list (call Real) -> call Real -> FS.t -> Z;
  tool_fs : list (call Real) -> call Real -> FS.t -> FS.t;
  (** the path [toCIF] returns, and the dictionary [readLowLevel] parses *)
  toCIF_returns : string -> string -> string;
  readLowLevel : FS.t -> string -> result CifDic
}.

Record world `{Host} : Type := {
  w_fs : FS.t;
  w_log : list (call Real)
}.

(** ** Steps run in a state-and-exception monad over the world *)

Definition M `{Host} (A : Type) : Type := world -> result A * world.

Definition ret `{Host} {A} (a : A) : M A := fun w => (Ok a, w).

Definition raise `{Host} {A} (e : exn) : M A := fun w => (Raise e, w).

Definition bind `{Host} {A B} (m : M A) (k : A -> M B) : M B :=
  fun w => match m w with
           | (Ok a, w') => k a w'
           | (Raise e, w') => (Raise e, w')
           end.

Notation "'let*' x ':=' m 'in' k" := (bind m (fun x => k))
  (at level 10, x name, m at level 100, k at level 200).
Notation "m ';;' k" := (bind m (fun _ => k))
  (at level 100, k at level 200, right associativity).

Definition lift `{Host} {A} (r : result A) : M A := fun w => (r, w).

Definition get_fs `{Host} : M FS.t := fun w => (Ok (w_fs w), w).

Definition put_fs `{Host} (fs : FS.t) : M unit :=
  fun w => (Ok tt, {| w_fs := fs; w_log := w_log w |}).

Definition print `{Host} (text : string) : M unit :=
  fun w => (Ok tt, {| w_fs := w_fs w; w_log := w_log w ++ [Stdout text] |}).

(** A blocking call to an external tool. *)
Definition extern `{Host} (c : call Real) : M unit :=
  fun w =>
    let w' := {| w_fs := tool_fs (w_log w) c (w_fs w); w_log := w_log w ++ [c] |} in
    match tool_raises (w_log w) c (w_fs w) with
    | Some e => (Raise e, w')
    | None => (Ok tt, w')
    end.

(** Modelled from the spec: [self.runJob(program, args, cwd=cwd)] (a method
    of the workflow engine's [Protocol] class, which is not part of this
    repository).  The call blocks until the subprocess ends; exit code 0 is
    required for success, any other is raised as a job failure. *)
Definition runJob `{Host} (program args cwd : string) : M unit :=
  fun w =>
    let c := RunJob program args cwd in
    let w' := {| w_fs := tool_fs (w_log w) c (w_fs w); w_log := w_log w ++ [c] |} in
    let code := exit_code (w_log w) c (w_fs w) in
    if (code =? 0)%Z then (Ok tt, w') else (Raise (CalledProcessError code), w').

(** [time.sleep(seconds)] *)
Definition sleep `{Host} (seconds : nat) : M unit :=
  fun w => (Ok tt, {| w_fs := tool_fs (w_log w) (Sleep seconds) (w_fs w);
                      w_log := w_log w ++ [Sleep seconds] |}).

Definition abspath `{Host} (p : string) : string := PosixPath.abspath getcwd p.

Definition locate `{Host} (p : string) : FS.loc := FS.resolve getcwd p.

(** [os.path.exists(p)] *)
Definition path_exists `{Host} (p : string) : M bool :=
  let* fs := get_fs in ret (FS.exists_ fs (locate p)).

(** [shutil.copyfile], [shutil.copytree], [shutil.rmtree] *)
Definition shutil_copyfile `{Host} (src dst : string) : M unit :=
  let* fs := get_fs in
  let* fs' := lift (FS.copyfile fs src (locate src) dst (locate dst)) in
  put_fs fs'.

Definition shutil_copytree `{Host} (src dst : string) : M unit :=
  let* fs := get_fs in
  let* fs' := lift (FS.copytree fs src (locate src) dst (locate dst)) in
  put_fs fs'.

Definition shutil_rmtree `{Host} (path : string) : M unit :=
  let* fs := get_fs in
  let* fs' := lift (FS.rmtree fs path (locate path)) in
  put_fs fs'.

(** ** ProtDMMValidation *)

Section Protocol.

Context `{Host}.

(** A [Volume] object: [getFileName()], [getSamplingRate()] and
    [getOrigin(force=True).getShifts()]. *)
Record Volume : Type := {
  vol_fileName : string;
  vol_samplingRate : Real;
  vol_shifts : Real * Real * Real
}.

(** An [AtomStruct] object: [getFileName()] and [getVolume()]. *)
Record AtomStruct : Type := {
  as_fileName : string;
  as_volume : Volume
}.

(** The protocol object: its run directory and identifier, and the
    values of the parameters that [_defineParams] gives it.
    [inputVolume] is what [self.inputVolume.get()] returns: the form
    declares the pointer without [allowsNull], so that a protocol whose
    steps run has a volume there.  [af2Structure] is the file name of
    [self.af2Structure.get()], when that pointer holds a structure. *)
Record protocol : Type := {
  workingDir : string;
  getObjId : nat;
  inputVolume : Volume;
  contourLevel : Real;
  inputSeq : string;
  af2Structure : option string
}.

Definition _ATTRNAME : string := "DMM_score".

(** [self.<name>] for a name the object has no attribute of.  The form
    of [_defineParams] has the parameters [inputVolume], [contourLevel],
    [inputSeq] and [af2Structure] besides the two hidden ones, and no
    method of the class assigns another attribute: reading
    [self.inputAtomStruct] or [self.chimeraResampling] raises
    [AttributeError]. *)
Definition no_attribute {A : Type} (name : string) : M A :=
  raise (AttributeError name).

Variable self : protocol.

(** Modelled from the spec: the run's private paths ([_getPath],
    [_getExtraPath] and [_getTmpPath] belong to the workflow engine's
    [Protocol] class, which is not part of this repository).  Each run
    works in a directory of its own; [_getPath(x)] is
    [join(workingDir, x)], and the run's [extra] and [tmp] directories lie
    directly below it: [_getExtraPath(x)] is [join(workingDir, 'extra', x)]
    and [_getTmpPath(x)] is [join(workingDir, 'tmp', x)]. *)
Definition _getPath (x : string) : string :=
  PosixPath.join (workingDir self) x.

Definition _getExtraPath (x : string) : string :=
  PosixPath.join3 (workingDir self) "extra" x.

Definition _getTmpPath (x : string) : string :=
  PosixPath.join3 (workingDir self) "tmp" x.

(** [_getInputVolume], for the volume the pointer holds.  (With an empty
    pointer the method turns to [self.inputAtomStruct], which the object
    does not have.) *)
Definition _getInputVolume : Volume := inputVolume self.

Definition _getinputSeq : string := inputSeq self.

Definition getVolumeFile : string := abspath (vol_fileName _getInputVolume).

Definition getSequenceFile : string := _getinputSeq.

Definition getLocalVolumeFile : string :=
  let oriName := PosixPath.basename (PosixPath.splitext_root getVolumeFile) in
  _getExtraPath (oriName ++ "_" ++ str_nat (getObjId self) ++ ".mrc").

Definition getVolumeName : string :=
  PosixPath.basename (PosixPath.splitext_root getLocalVolumeFile).

(** The value of [extrapath] in [getLocalSequenceFile]. *)
Definition getLocalSequenceFile_extrapath : string :=
  let oriName := PosixPath.basename (PosixPath.splitext_root getSequenceFile) in
  _getExtraPath (oriName ++ "_" ++ str_nat (getObjId self) ++ ".fasta").

Definition getLocalSequenceFile : M string :=
  let extrapath := getLocalSequenceFile_extrapath in
  let parts := PosixPath.split extrapath in
  let res := PosixPath.join_sep (removelast parts) in
  print "HAHA";;
  print (abspath extrapath);;
  print (abspath res);;
  shutil_copyfile getSequenceFile (abspath extrapath);;
  ret extrapath.

Definition convertInputStep : M unit :=
  let inVol := _getInputVolume in
  let inVolFile := vol_fileName inVol in
  let inVolSR := vol_samplingRate inVol in
  let mrcFile := _getTmpPath "inpVolume.mrc" in
  extern (ImageConvert inVolFile mrcFile);;
  extern (FixFile mrcFile mrcFile (vol_shifts inVol) inVolSR START);;
  extern (FixFile mrcFile getLocalVolumeFile (vol_shifts inVol) inVolSR ORIGIN).

Definition getDMMArgs : M string :=
  let map_path := abspath getLocalVolumeFile in
  let* local_seq := getLocalSequenceFile in
  let fasta_path := abspath local_seq in
  let alphafold_pdb_path :=
    match af2Structure self with
    | Some f => abspath f
    | None => ""
    end in
  let contour := contourLevel self in
  let output_path := abspath (_getTmpPath "predictions") in
  ret (" -m " ++ map_path ++ " -f " ++ fasta_path ++ " -A " ++ alphafold_pdb_path
       ++ " -c " ++ str_float contour ++ " -o " ++ output_path ++ " -t 10 -T 10").

Definition launcher : string := "dmm_full_multithreads.sh".

(** The two lines of [DMMStep] that settle the argument string passed to
    [runJob]. *)
Definition DMMStep_args (args : string) : string :=
  if negb (contains launcher args)
  then "-p " ++ Plugin_DMMBinary ++ args
  else args.

Definition DMMStep_program : string :=
  let envActivationCommand :=
    Plugin_getCondaActivationCmd ++ " " ++ Plugin_getProtocolActivationCommand "dmm" in
  envActivationCommand ++ " && " ++ Plugin_DMMBinary ++ "/dmm_full_multithreads.sh".

(** The predictor's own output directory. *)
Definition DMMDir : string :=
  PosixPath.join3 Plugin_DMMBinary "Predict_Result" getVolumeName.

(** [DMMStep] up to and including [self.runJob]. *)
Definition DMMStep_run : M unit :=
  let program_path := Plugin_DMMBinary in
  let* args := getDMMArgs in
  print Plugin_getCondaActivationCmd;;
  print (Plugin_getProtocolActivationCommand "DMM");;
  let fullProgram := DMMStep_program in
  let args := DMMStep_args args in
  runJob fullProgram args program_path.

(** The rest of [DMMStep]: the predictor's output directory is copied
    to the run's extra path and removed. *)
Definition DMMStep_relocate : M unit :=
  let outDir := _getExtraPath "predictions" in
  shutil_copytree DMMDir outDir;;
  shutil_rmtree DMMDir.

Definition DMMStep : M unit :=
  DMMStep_run;; DMMStep_relocate.

(** [parseDMMScores(pdbFile)] *)
Definition parseDMMScores (pdbFile : string) : M (gmap string string) :=
  let* fs := get_fs in
  let* content := lift (FS.read_file fs pdbFile (locate pdbFile)) in
  lift (parseDMMScores_lines (readlines content)).

(** Modelled from the spec: [addScipionAttribute] (imported from the
    image library, not part of this repository).  The merged dictionary
    gains a category named by the caller; its rows are the scores of the
    residues that the structural file has, under the same keys; residues
    of the file without a score get no row, scores of residues the file
    lacks are dropped. *)
Definition addScipionAttribute (cifDic : CifDic) (scores : gmap string string)
    (attrName : string) : CifDic :=
  {| cif_residues := cif_residues cifDic;
     cif_attributes :=
       <[attrName := filter (fun kv => kv.1 ∈ cif_residues cifDic) scores]>
         (cif_attributes cifDic) |}.

(** [chimeraInstalled()] *)
Definition chimeraInstalled : M bool :=
  if String.eqb Chimera_getHome "" then ret false
  else path_exists Chimera_getProgram.

Definition outDMMFile : string :=
  abspath (_getTmpPath "predictions/DMM_score_w9.pdb").

(** [createOutputStep]; the structure it hands to [_defineOutputs] is
    returned.  [self.inputAtomStruct] is read when the arguments of
    [toCIF] are evaluated, and [self.chimeraResampling] first in the
    condition of the [if]. *)
Definition createOutputStep : M AtomStruct :=
  let outStructFileName := _getPath "outputStructure.cif" in
  let* DMMScoresDic := parseDMMScores outDMMFile in
  let* inputAtomStruct := no_attribute "inputAtomStruct" in
  let src := as_fileName inputAtomStruct in
  let dst := _getTmpPath "inputStruct.cif" in
  extern (ToCIF src dst);;
  let inpAS := toCIF_returns src dst in
  let* fs := get_fs in
  let* cifDic := lift (readLowLevel fs inpAS) in
  let cifDic := addScipionAttribute cifDic DMMScoresDic _ATTRNAME in
  extern (WriteLowLevel outStructFileName cifDic);;
  let inVol := _getInputVolume in
  let* chimeraResampling := no_attribute "chimeraResampling" in
  let* resampled :=
    if chimeraResampling && negb (float_eqb (vol_samplingRate inVol) float_one)
    then chimeraInstalled else ret false in
  let outVol :=
    {| vol_fileName := getLocalVolumeFile;
       vol_samplingRate := if resampled then float_one else vol_samplingRate inVol;
       vol_shifts := vol_shifts inVol |} in
  ret {| as_fileName := outStructFileName; as_volume := outVol |}.

(** [chimeraResampleScript]: the script is written to the run's extra
    directory and its path returned. *)
Definition chimeraResampleScript (inVolFile : string) (newSampling : Real)
    (outFile : string) : M string :=
  let scriptFn := _getExtraPath "resampleVolume.cxc" in
  let nl := String LF EmptyString in
  let text :=
    "cd " ++ getcwd ++ nl
    ++ "open " ++ inVolFile ++ nl
    ++ "vol resample #1 spacing " ++ str_float newSampling ++ nl
    ++ "save " ++ outFile ++ " model #2" ++ nl
    ++ "exit" ++ nl in
  let* fs := get_fs in
  let* fs' := lift (FS.write_file fs scriptFn (locate scriptFn) text) in
  put_fs fs';;
  ret scriptFn.

(** [while not os.path.exists(outFile): time.sleep(1)], allowed [fuel]
    evaluations of its condition; the answer tells whether the loop was
    left. *)
Fixpoint poll (fuel : nat) (outFile : string) : M bool :=
  match fuel with
  | O => ret false
  | S fuel' =>
      let* found := path_exists outFile in
      if found then ret true
      else sleep 1;; poll fuel' outFile
  end.

(** The body of the [with] block of [chimeraResample] before its loop:
    the script is written and the visualiser run on it. *)
Definition chimeraResample_launch (inVolFile : string) (newSR : Real)
    (outFile : string) : M unit :=
  let* resampleScript := chimeraResampleScript inVolFile newSR outFile in
  extern (RunChimeraProgram (chimeraPlugin_getProgram ++ " --nogui --silent")
                            resampleScript getcwd).

(** [chimeraResample]; [None] when the polling loop is still running
    after [fuel] checks.  The loop is inside [with weakImport("chimera")],
    the [return] after it.  [weakImport] (a context manager of the
    workflow engine, not part of this repository) tolerates the import it
    guards: when [from chimera import Plugin] raises [ImportError] the
    block is abandoned at that first line, the error is swallowed and the
    [return] that follows the block runs. *)
Definition chimeraResample (fuel : nat) (inVolFile : string) (newSR : Real)
    (outFile : string) : M (option string) :=
  if chimera_importable then
    chimeraResample_launch inVolFile newSR outFile;;
    let* left := poll fuel outFile in
    ret (if left then Some outFile else None)
  else ret (Some outFile).

(** The world after [k] more rounds of [time.sleep(1)]. *)
Fixpoint after_sleeps (k : nat) (w : world) : world :=
  match k with
  | O => w
  | S k' => after_sleeps k' (snd (sleep 1 w))
  end.

(** The argument string in the form the specification gives. *)
Definition spec_args (map_path sequence_path aux_model_path contour output_dir : string)
  : string :=
  "-m " ++ map_path ++ " -f " ++ sequence_path ++ " -A " ++ aux_model_path
  ++ " -c " ++ contour ++ " -o " ++ output_dir ++ " -t 10 -T 10".

(** The launcher script name occurs in an argument string. *)
Definition launcher_detected (args : string) : Prop :=
  exists pre post, args = pre ++ launcher ++ post.

End Protocol.

Arguments Volume {_}.
Arguments AtomStruct {_}.
Arguments protocol {_}.

(** ** A concrete host and run, used to evaluate the model *)

Module Demo.

(** A file system given by the list of its entries. *)
Fixpoint fs_of (entries : list (FS.loc * FS.node)) : FS.t :=
  fun q =>
    match entries with
    | [] => None
    | (p, n) :: rest => if decide (q = p) then Some n else fs_of rest q
    end.

Definition nl : string := String LF EmptyString.

Definition score_file : string :=
  "REMARK DMM scores" ++ nl
  ++ "ATOM      1  N   MET A  10      27.340  24.430   2.614  1.00  0.50           N" ++ nl
  ++ "ATOM      2  CA  MET A  10      26.266  25.413   2.842  1.00  0.90           C" ++ nl
  ++ "HETATM    9  N   GLY A  11      26.913  26.639   3.531  1.00  0.30           N" ++ nl
  ++ "END" ++ nl.

Definition count_sleeps {R} (log : list (call R)) : nat :=
  List.length (List.filter (fun c => match c with Sleep _ => true | _ => false end) log).

Definition run_dir : FS.loc :=
  ["home"; "user"; "project"; "Runs"; "000007_ProtDMMValidation"].

(** where the [-o] argument points *)
Definition out_dir : FS.loc := (run_dir ++ ["tmp"; "predictions"])%list.

(** The predictor writes the score file to the directory named by [-o]
    and leaves [Predict_Result/vol1_7], with the score file, in the
    installation directory; the visualiser's output shows up during the
    second second of waiting. *)
Definition tool_effect (log : list (call Z)) (c : call Z) (fs : FS.t) : FS.t :=
  match c with
  | RunJob _ _ _ =>
      fun q =>
        if decide (q = ["opt"; "DMM"; "Predict_Result"]) then Some FS.Dir
        else if decide (q = ["opt"; "DMM"; "Predict_Result"; "vol1_7"]) then Some FS.Dir
        else if decide (q = ["opt"; "DMM"; "Predict_Result"; "vol1_7"; "DMM_score_w9.pdb"])
        then Some (FS.File score_file)
        else if decide (q = out_dir) then Some FS.Dir
        else if decide (q = (out_dir ++ ["DMM_score_w9.pdb"])%list)
        then Some (FS.File score_file)
        else fs q
  | Sleep _ =>
      if (1 <=? count_sleeps log)%nat
      then FS.write fs (run_dir ++ ["extra"; "resampled.mrc"])%list (FS.File "volume")
      else fs
  | _ => fs
  end.

Section Run.

Variable importable : bool.
Variable effect : list (call Z) -> call Z -> FS.t -> FS.t.

Definition make_host : Host := {|
  Real := Z;
  str_float := fun z => str_nat (Z.to_nat z) ++ ".0";
  float_eqb := Z.eqb;
  float_one := 1%Z;
  getcwd := "/home/user/project";
  Plugin_DMMBinary := "/opt/DMM";
  Plugin_getCondaActivationCmd := ". /opt/conda/etc/profile.d/conda.sh &&";
  Plugin_getProtocolActivationCommand := fun name => "conda activate " ++ name ++ "-env";
  Chimera_getHome := "/opt/chimerax";
  Chimera_getProgram := "/opt/chimerax/bin/ChimeraX";
  chimera_importable := importable;
  chimeraPlugin_getProgram := "/opt/chimerax/bin/ChimeraX";
  getcwd_isabs := eq_refl;
  tool_raises := fun _ _ _ => None;
  exit_code := fun _ _ _ => 0%Z;
  tool_fs := effect;
  toCIF_returns := fun _ dst => dst;
  readLowLevel := fun _ _ =>
    Ok {| cif_residues := ["A:10"; "A:11"; "A:12"]; cif_attributes := ∅ |}
|}.

#[local] Existing Instance make_host.

Definition make_volume : Volume :=
  {| vol_fileName := "Runs/000002_ProtImportVolumes/extra/vol1.mrc";
     vol_samplingRate := 2%Z;
     vol_shifts := (0, 0, 0)%Z |}.

Definition make_self : protocol :=
  {| workingDir := "Runs/000007_ProtDMMValidation";
     getObjId := 7;
     inputVolume := make_volume;
     contourLevel := 0%Z;
     inputSeq := "/data/seq.fasta";
     af2Structure := None |}.

Definition fs0 : FS.t :=
  fs_of [ (["data"], FS.Dir);
          (["data"; "seq.fasta"], FS.File ">seq");
          (["opt"], FS.Dir);
          (["opt"; "DMM"], FS.Dir);
          (["opt"; "DMM"; "dmm_full_multithreads.sh"], FS.File "#!/bin/bash");
          (["home"], FS.Dir);
          (["home"; "user"], FS.Dir);
          (["home"; "user"; "project"], FS.Dir);
          (["home"; "user"; "project"; "Runs"], FS.Dir);
          (run_dir, FS.Dir);
          ((run_dir ++ ["extra"])%list, FS.Dir);
          ((run_dir ++ ["tmp"])%list, FS.Dir) ].

Definition make_world : world := {| w_fs := fs0; w_log := [] |}.

End Run.

(** The host whose predictor and visualiser do their work. *)
Definition host : Host := make_host true tool_effect.
Definition self : @protocol host := make_self true tool_effect.
Definition w0 : @world host := make_world true tool_effect.

(** A host whose tools leave the file system alone. *)
Definition idle_host : Host := make_host true (fun _ _ fs => fs).
Definition idle_self : @protocol idle_host := make_self true (fun _ _ fs => fs).
Definition idle_w0 : @world idle_host := make_world true (fun _ _ fs => fs).

(** A host without the chimera plugin. *)
Definition bare_host : Host := make_host false (fun _ _ fs => fs).
Definition bare_self : @protocol bare_host := make_self false (fun _ _ fs => fs).
Definition bare_w0 : @world bare_host := make_world false (fun _ _ fs => fs).

Definition resampled : string :=
  "Runs/000007_ProtDMMValidation/extra/resampled.mrc".

End Demo.

(** ** The remaining helpers of the protocol *)

(** [s.split(sep)] for a separator of one character *)
Fixpoint str_split (sepc : ascii) (s : string) : list string :=
  match s with
  | EmptyString => [EmptyString]
  | String c s' =>
      if Ascii.eqb c sepc then EmptyString :: str_split sepc s'
      else match str_split sepc s' with
           | h :: t => String c h :: t
           | [] => [String c EmptyString]
           end
  end.

(** [sep.join(parts)] *)
Fixpoint str_join (sepc : ascii) (parts : list string) : string :=
  match parts with
  | [] => EmptyString
  | [p] => p
  | p :: rest => p ++ String sepc (str_join sepc rest)
  end.

(** No line break occurs in [s]. *)
Fixpoint no_newline (s : string) : bool :=
  match s with
  | EmptyString => true
  | String c s' => negb (Ascii.eqb c LF) && negb (Ascii.eqb c CR) && no_newline s'
  end.

(** [getGPUIds]: the value of the hidden parameter [GPU_LIST], here
    [gpuList], split at its commas. *)
Definition getGPUIds (gpuList : string) : list string :=
  str_split ","%char gpuList.

(** [_insertAllSteps]: the step functions, by name, in the order they are
    inserted and run. *)
Definition _insertAllSteps : list string :=
  ["convertInputStep"; "DMMStep"; "createOutputStep"].

(** The steps that come after the step called [name]. *)
Fixpoint steps_after (name : string) (steps : list string) : list string :=
  match steps with
  | [] => []
  | s :: rest => if String.eqb s name then rest else steps_after name rest
  end.

Section Helpers.

Context `{Host}.

Variable self : protocol.

Definition getStructFile : M string :=
  let* inputAtomStruct := no_attribute "inputAtomStruct" in
  ret (abspath (as_fileName inputAtomStruct)).

Definition getStructName : M string :=
  let* structFile := getStructFile in
  ret (PosixPath.basename (PosixPath.splitext_root structFile)).

Definition getPdbStruct : M string :=
  let* structName := getStructName in
  ret (_getTmpPath self structName ++ ".pdb").

Definition getDMMScoreFile : string :=
  _getPath self (_ATTRNAME ++ ".defattr").

Definition _summary : list string := [].

Definition _methods : list string := [].

(** [_warnings]; [self.chimeraResampling] is read first in the condition
    of the [if]. *)
Definition _warnings : M (list string) :=
  let nl := String LF EmptyString in
  let* chimeraResampling := no_attribute "chimeraResampling" in
  let* missing :=
    if (chimeraResampling : bool)
    then (let* installed := chimeraInstalled in ret (negb installed))
    else ret false in
  ret (if missing
       then ["Chimera program is not found were it was expected: " ++ nl ++ nl
             ++ Chimera_getProgram ++ nl ++ nl
             ++ "Either install ChimeraX in this path or install our "
             ++ "scipion-em-chimera plugin"]
       else []).

End Helpers.

(** Further states of the concrete run. *)
Module Scenario.

(** The run after a first [DMMStep]: its extra [predictions] directory is
    there already. *)
Definition rerun_w0 : @world Demo.host :=
  {| w_fs := FS.write Demo.fs0 (Demo.run_dir ++ ["extra"; "predictions"])%list FS.Dir;
     w_log := [] |}.

(** The run without its sequence file. *)
Definition noseq_w0 : @world Demo.host :=
  {| w_fs := fun q => if decide (q = ["data"; "seq.fasta"]) then None else Demo.fs0 q;
     w_log := [] |}.

(** A host whose predictor exits with code 2 and writes nothing. *)
Definition failing_host : Host :=
  {| Real := Z;
     str_float := fun z => str_nat (Z.to_nat z) ++ ".0";
     float_eqb := Z.eqb;
     float_one := 1%Z;
     getcwd := "/home/user/project";
     Plugin_DMMBinary := "/opt/DMM";
     Plugin_getCondaActivationCmd := ". /opt/conda/etc/profile.d/conda.sh &&";
     Plugin_getProtocolActivationCommand := fun name => "conda activate " ++ name ++ "-env";
     Chimera_getHome := "/opt/chimerax";
     Chimera_getProgram := "/opt/chimerax/bin/ChimeraX";
     chimera_importable := true;
     chimeraPlugin_getProgram := "/opt/chimerax/bin/ChimeraX";
     getcwd_isabs := eq_refl;
     tool_raises := fun _ _ _ => None;
     exit_code := fun _ c _ => match c with RunJob _ _ _ => 2%Z | _ => 0%Z end;
     tool_fs := fun _ _ fs => fs;
     toCIF_returns := fun _ dst => dst;
     readLowLevel := fun _ _ =>
       Ok {| cif_residues := ["A:10"; "A:11"; "A:12"]; cif_attributes := ∅ |}
  |}.

#[local] Existing Instance failing_host.

Definition failing_self : @protocol failing_host :=
  {| workingDir := "Runs/000007_ProtDMMValidation";
     getObjId := 7;
     inputVolume := {| vol_fileName := "Runs/000002_ProtImportVolumes/extra/vol1.mrc";
                       vol_samplingRate := 2%Z;
                       vol_shifts := (0, 0, 0)%Z |};
     contourLevel := 0%Z;
     inputSeq := "/data/seq.fasta";
     af2Structure := None |}.

Definition failing_w0 : @world failing_host := {| w_fs := Demo.fs0; w_log := [] |}.

(** The run with another identifier and run directory, on the same input
    volume. *)
Definition other_self : @protocol Demo.host :=
  {| workingDir := "Runs/000031_ProtDMMValidation";
     getObjId := 31;
     inputVolume := inputVolume Demo.self;
     contourLevel := contourLevel Demo.self;
     inputSeq := inputSeq Demo.self;
     af2Structure := af2Structure Demo.self |}.

(** A run whose directory bears the launcher's name. *)
Definition launcher_self : @protocol Demo.host :=
  {| workingDir := "Runs/dmm_full_multithreads.sh";
     getObjId := 7;
     inputVolume := inputVolume Demo.self;
     contourLevel := contourLevel Demo.self;
     inputSeq := inputSeq Demo.self;
     af2Structure := af2Structure Demo.self |}.

Definition launcher_w0 : @world Demo.host :=
  {| w_fs := FS.write Demo.fs0
               ["home"; "user"; "project"; "Runs"; "dmm_full_multithreads.sh"; "extra"] FS.Dir;
     w_log := [] |}.

(** The run before its directories are made. *)
Definition bare_run_w0 : @world Demo.host :=
  {| w_fs := Demo.fs_of [ (["data"], FS.Dir); (["data"; "seq.fasta"], FS.File ">seq") ];
     w_log := [] |}.

(** A run whose directory lies inside the predictor's installation
    directory. *)
Definition nested_dir : FS.loc := ["opt"; "DMM"; "Runs"; "000007_ProtDMMValidation"].

Definition nested_self : @protocol Demo.host :=
  {| workingDir := "/opt/DMM/Runs/000007_ProtDMMValidation";
     getObjId := 7;
     inputVolume := inputVolume Demo.self;
     contourLevel := contourLevel Demo.self;
     inputSeq := inputSeq Demo.self;
     af2Structure := af2Structure Demo.self |}.

Definition nested_w0 : @world Demo.host :=
  {| w_fs := fun q =>
       if decide (q = ["opt"; "DMM"; "Runs"]) then Some FS.Dir
       else if decide (q = nested_dir) then Some FS.Dir
       else if decide (q = (nested_dir ++ ["extra"])%list) then Some FS.Dir
       else if decide (q = (nested_dir ++ ["tmp"])%list) then Some FS.Dir
       else Demo.fs0 q;
     w_log := [] |}.

(** The run after its [DMMStep], and that state with the score file
    gone from [tmp/predictions] while its copy in [extra/predictions]
    stays. *)
Definition after_DMMStep : @world Demo.host := snd (@DMMStep Demo.host Demo.self Demo.w0).

Definition without_tmp_scores : @world Demo.host :=
  {| w_fs := fun q =>
       if decide (q = (Demo.out_dir ++ ["DMM_score_w9.pdb"])%list) then None
       else w_fs after_DMMStep q;
     w_log := w_log after_DMMStep |}.

End Scenario.

(** * Properties *)

(** ** Strings *)

#[local] Arguments String.append : simpl nomatch.

Lemma startswith_spec (s a : string) :
  startswith s a = true <-> exists post, s = a ++ post.
Proof.
  revert s; induction a as [|c a IH]; intros s.
  - split; [intros _; exists s; reflexivity | reflexivity].
  - destruct s as [|c' s]; cbn [startswith].
    + split; [discriminate | intros [post Hp]; discriminate].
    + rewrite andb_true_iff, IH, Ascii.eqb_eq. split.
      * intros [-> [post ->]]. exists post. reflexivity.
      * intros [post Hp]. simpl in Hp. injection Hp as -> ->. eauto.
Qed.

Lemma contains_spec (sub s : string) :
  contains sub s = true <-> exists pre post, s = pre ++ sub ++ post.
Proof.
  induction s as [|c s IH]; cbn [contains].
  - rewrite orb_false_r, startswith_spec. split.
    + intros [post Hp]. exists "", post. exact Hp.
    + intros (pre & post & Hp). destruct pre; [|discriminate].
      exists post. exact Hp.
  - rewrite orb_true_iff, startswith_spec, IH. split.
    + intros [[post Hp] | (pre & post & Hp)].
      * exists "", post. exact Hp.
      * exists (String c pre), post. simpl. congruence.
    + intros (pre & post & Hp). destruct pre as [|c' pre]; simpl in Hp.
      * left. exists post. exact Hp.
      * right. exists pre, post. congruence.
Qed.

Lemma length_append (a b : string) :
  String.length (a ++ b) = String.length a + String.length b.
Proof. induction a; simpl; congruence. Qed.

Lemma append_assoc (a b c : string) : (a ++ b) ++ c = a ++ b ++ c.
Proof. induction a; simpl; congruence. Qed.

Lemma append_nil_r (a : string) : a ++ "" = a.
Proof. induction a; simpl; congruence. Qed.

Lemma append_inv_head (a b c : string) : a ++ b = a ++ c -> b = c.
Proof. induction a; simpl; intros Heq; [assumption | injection Heq; auto]. Qed.

(** ** C1: which argument strings get the binary path in front *)

Section Launch.

Context `{Host}.

(** C1 (as amended): the ['-p <binary>'] prefix is put in front of the
    argument string exactly when the launcher script name does NOT occur
    in it; an argument string in which the name occurs is passed on
    unchanged. *)
Theorem DMMStep_args_prefixed_iff_launcher_absent (args : string) :
  (DMMStep_args args = "-p " ++ Plugin_DMMBinary ++ args
     <-> ~ launcher_detected args)
  /\ (DMMStep_args args = args <-> launcher_detected args).
Proof.
  unfold DMMStep_args, launcher_detected.
  assert (Hlen : "-p " ++ Plugin_DMMBinary ++ args <> args).
  { intros Heq. apply (f_equal String.length) in Heq.
    rewrite !length_append in Heq. simpl in Heq. lia. }
  destruct (contains launcher args) eqn:Hc; cbn [negb].
  - apply contains_spec in Hc.
    split; split; intros; try tauto; exfalso; apply Hlen; congruence.
  - assert (Hn : ~ exists pre post, args = pre ++ launcher ++ post).
    { intros Hd. apply contains_spec in Hd. congruence. }
    split; split; intros; try tauto; exfalso; apply Hlen; congruence.
Qed.

End Launch.

(** C1 fails as stated: an argument string without the launcher name is
    not left unchanged, and one with the launcher name does not get the
    binary path in front. *)
Lemma DMMStep_args_launcher_counterexample :
  let plain := " -m map.mrc -f seq.fasta" in
  let custom := "/opt/DMM/dmm_full_multithreads.sh -m map.mrc" in
  contains launcher plain = false
  /\ @DMMStep_args Demo.host plain = "-p /opt/DMM -m map.mrc -f seq.fasta"
  /\ @DMMStep_args Demo.host plain <> plain
  /\ contains launcher custom = true
  /\ @DMMStep_args Demo.host custom = custom
  /\ @DMMStep_args Demo.host custom <> "-p /opt/DMM" ++ custom.
Proof. vm_compute. repeat split; discriminate. Qed.

(** ** The score-file parser *)

Lemma get_in_range (s : string) (n : nat) :
  n < String.length s -> exists c, String.get n s = Some c.
Proof.
  revert n; induction s as [|c s IH]; intros n Hn; simpl in *; [lia|].
  destruct n as [|n]; [exists c; reflexivity|]. apply IH. lia.
Qed.

Lemma get_past_end (s : string) (n : nat) :
  String.length s <= n -> String.get n s = None.
Proof.
  revert n; induction s as [|c s IH]; intros n Hn; simpl in *; [reflexivity|].
  destruct n as [|n]; [lia|]. apply IH. lia.
Qed.

Lemma resId_of_long (line : string) :
  21 < String.length line -> exists k, resId_of line = Ok k.
Proof.
  intros Hlen. unfold resId_of, index.
  destruct (get_in_range line 21 Hlen) as [c ->]. eauto.
Qed.

Lemma resId_of_short (line : string) :
  String.length line <= 21 -> resId_of line = Raise IndexError.
Proof.
  intros Hlen. unfold resId_of, index. rewrite (get_past_end line 21 Hlen).
  reflexivity.
Qed.

Lemma parse_line_skip (d : gmap string string) (line : string) :
  is_record line = false -> parse_line d line = Ok d.
Proof. intros Hr. unfold parse_line. rewrite Hr. reflexivity. Qed.

(** What a record line does to the dictionary. *)
Lemma parse_line_record (d : gmap string string) (line k : string) :
  is_record line = true -> resId_of line = Ok k ->
  parse_line d line =
    Ok (match d !! k with Some _ => d | None => <[k := score_of line]> d end).
Proof.
  intros Hr Hk. unfold parse_line. rewrite Hr, Hk. destruct (d !! k); reflexivity.
Qed.

Lemma parse_line_keeps (d d' : gmap string string) (line k v : string) :
  parse_line d line = Ok d' -> d !! k = Some v -> d' !! k = Some v.
Proof.
  unfold parse_line. destruct (is_record line); [|congruence].
  destruct (resId_of line) as [r|]; [|discriminate].
  destruct (d !! r) eqn:Hr; intros [= <-] Hk; [assumption|].
  rewrite lookup_insert_ne; [assumption | congruence].
Qed.

Lemma parse_line_other (d d' : gmap string string) (line k : string) :
  parse_line d line = Ok d' ->
  (is_record line = true -> resId_of line <> Ok k) ->
  d' !! k = d !! k.
Proof.
  unfold parse_line. destruct (is_record line); [|congruence].
  destruct (resId_of line) as [r|]; [|discriminate].
  destruct (d !! r) eqn:Hr; intros [= <-] Hk; [reflexivity|].
  rewrite lookup_insert_ne; [reflexivity|]. intros ->. apply Hk; reflexivity.
Qed.

Lemma parse_lines_app (d : gmap string string) (a b : list string) :
  parse_lines d (a ++ b) =
    match parse_lines d a with
    | Ok d1 => parse_lines d1 b
    | Raise e => Raise e
    end.
Proof.
  revert d; induction a as [|l a IH]; intros d; simpl; [reflexivity|].
  destruct (parse_line d l); [apply IH | reflexivity].
Qed.

Lemma parse_lines_keeps (lines : list string) (d d' : gmap string string) (k v : string) :
  parse_lines d lines = Ok d' -> d !! k = Some v -> d' !! k = Some v.
Proof.
  revert d; induction lines as [|l lines IH]; intros d; simpl.
  - intros [= <-]; auto.
  - destruct (parse_line d l) as [d1|] eqn:Hl; [|discriminate].
    intros Hrest Hk. eapply IH; [eassumption|]. eapply parse_line_keeps; eassumption.
Qed.

Lemma parse_lines_readable (lines : list string) (d : gmap string string) :
  forallb readable_line lines = true -> exists d', parse_lines d lines = Ok d'.
Proof.
  revert d; induction lines as [|l lines IH]; intros d; simpl; [eauto|].
  rewrite andb_true_iff. intros [Hl Hrest].
  assert (Hstep : exists d1, parse_line d l = Ok d1).
  { unfold readable_line in Hl. destruct (is_record l) eqn:Hr.
    - simpl in Hl. apply Nat.ltb_lt in Hl.
      destruct (resId_of_long l Hl) as [k Hk].
      rewrite (parse_line_record d l k Hr Hk). eauto.
    - rewrite (parse_line_skip d l Hr). eauto. }
  destruct Hstep as [d1 ->]. apply IH; assumption.
Qed.

Lemma parse_lines_first (pre post : list string) (line k : string)
    (d d' : gmap string string) :
  parse_lines d (pre ++ line :: post) = Ok d' ->
  is_record line = true -> resId_of line = Ok k -> d !! k = None ->
  (forall l, In l pre -> is_record l = true -> resId_of l <> Ok k) ->
  d' !! k = Some (score_of line).
Proof.
  revert d; induction pre as [|a pre IH]; intros d; simpl; intros Hp Hr Hk Hd Hpre.
  - rewrite (parse_line_record d line k Hr Hk), Hd in Hp.
    eapply parse_lines_keeps; [eassumption|]. apply lookup_insert_eq.
  - destruct (parse_line d a) as [d1|] eqn:Ha; [|discriminate].
    apply (IH d1); auto.
    rewrite (parse_line_other d d1 a k Ha); auto.
Qed.

(** C2: for a score file whose record lines all reach column 22,
    [parseDMMScores] returns a dictionary, leaving the world as it was,
    that binds the key of every record line, chain and residue number
    both trimmed, to the score field of the first record line in file
    order that has this key, however many follow; and a key bound after
    some prefix of the file keeps its value to the end. *)
Theorem parseDMMScores_first_record_wins `{Host} (pdbFile content : string) (w : world) :
  w_fs w (locate pdbFile) = Some (FS.File content) ->
  forallb readable_line (readlines content) = true ->
  exists d,
    parseDMMScores pdbFile w = (Ok d, w)
    /\ (forall pre line post k,
          readlines content = (pre ++ line :: post)%list ->
          is_record line = true -> resId_of line = Ok k ->
          (forall l, In l pre -> is_record l = true -> resId_of l <> Ok k) ->
          d !! k = Some (score_of line))
    /\ (forall pre post di k v,
          readlines content = (pre ++ post)%list ->
          parse_lines ∅ pre = Ok di -> di !! k = Some v ->
          d !! k = Some v).
Proof.
  intros Hfile Hread.
  destruct (parse_lines_readable (readlines content) ∅ Hread) as [d Hd].
  exists d. split; [|split].
  - unfold parseDMMScores, bind, get_fs, lift, FS.read_file. cbn [w_fs].
    rewrite Hfile. unfold parseDMMScores_lines. rewrite Hd. destruct w. reflexivity.
  - intros pre line post k Hsplit Hr Hk Hpre. rewrite Hsplit in Hd.
    eapply parse_lines_first; eauto.
  - intros pre post di k v Hsplit Hpre Hk. rewrite Hsplit in Hd.
    rewrite parse_lines_app, Hpre in Hd.
    eapply parse_lines_keeps; eassumption.
Qed.

Lemma parseDMMScores_first_record_wins_witness :
  exists d,
    @parseDMMScores Demo.host (@outDMMFile Demo.host Demo.self) Scenario.after_DMMStep
    = (Ok d, Scenario.after_DMMStep)
    /\ d !! "A:10" = Some "0.50" /\ d !! "A:11" = Some "0.30".
Proof.
  assert (Hfile : w_fs Scenario.after_DMMStep (@locate Demo.host (@outDMMFile Demo.host Demo.self))
                  = Some (FS.File Demo.score_file))
    by (vm_compute; reflexivity).
  destruct (@parseDMMScores_first_record_wins Demo.host
              (@outDMMFile Demo.host Demo.self) Demo.score_file Scenario.after_DMMStep
              Hfile eq_refl)
    as (d & Hd & Hfirst & _).
  exists d. split; [exact Hd|]. split.
  - apply (Hfirst [List.nth 0 (readlines Demo.score_file) ""]
                  (List.nth 1 (readlines Demo.score_file) "")
                  (List.skipn 2 (readlines Demo.score_file)) "A:10");
      try reflexivity.
    intros l [<-|[]]. discriminate.
  - apply (Hfirst (List.firstn 3 (readlines Demo.score_file))
                  (List.nth 3 (readlines Demo.score_file) "")
                  (List.skipn 4 (readlines Demo.score_file)) "A:11");
      try reflexivity.
    intros l [<-|[<-|[<-|[]]]]; vm_compute; intros; discriminate.
Defined.

(** The parsing scenario of the specification: two [ATOM] lines for
    residue [A:10] with scores [0.50] and [0.90], one line for [A:11] with
    score [0.30]. *)
Example parseDMMScores_scenario :
  parseDMMScores_lines (readlines Demo.score_file)
  = Ok (<["A:11" := "0.30"]> {["A:10" := "0.50"]}).
Proof. vm_compute. reflexivity. Qed.

(** C3 fails as stated: a line that begins with a record token but stops
    before column 22 makes the parser raise, and a record line cut off
    before its score columns is not skipped: its key gets bound. *)
Lemma parse_line_malformed_counterexample :
  parse_line ∅ ("ATOM" ++ Demo.nl) = Raise IndexError
  /\ parseDMMScores_lines ["REMARK" ++ Demo.nl; "ATOM" ++ Demo.nl] = Raise IndexError
  /\ (exists d, parse_line ∅ "ATOM      1  N   MET A  10" = Ok d
                /\ d !! "A:10" = Some "" /\ d <> ∅).
Proof.
  split; [reflexivity|]. split; [reflexivity|].
  eexists. split; [reflexivity|]. split; [reflexivity|].
  intros Heq. apply (f_equal (fun m : gmap string string => m !! "A:10")) in Heq.
  vm_compute in Heq. discriminate.
Qed.

(** The loop body raises on exactly the record lines that stop before
    column 22. *)
Lemma parse_line_raises_iff (d : gmap string string) (line : string) (e : exn) :
  parse_line d line = Raise e
  <-> is_record line = true /\ String.length line <= 21 /\ e = IndexError.
Proof.
  split.
  - intros Hraise. destruct (is_record line) eqn:Hr;
      [|rewrite (parse_line_skip d line Hr) in Hraise; discriminate].
    destruct (Nat.le_gt_cases (String.length line) 21) as [Hshort|Hlong].
    + unfold parse_line in Hraise. rewrite Hr, (resId_of_short line Hshort) in Hraise.
      injection Hraise as <-. auto.
    + destruct (resId_of_long line Hlong) as [k Hk].
      rewrite (parse_line_record d line k Hr Hk) in Hraise. discriminate.
  - intros (Hr & Hshort & ->). unfold parse_line.
    rewrite Hr, (resId_of_short line Hshort). reflexivity.
Qed.

Lemma parse_lines_filter (d : gmap string string) (lines : list string) :
  parse_lines d lines = parse_lines d (List.filter is_record lines).
Proof.
  revert d; induction lines as [|l lines IH]; intros d; simpl; [reflexivity|].
  destruct (is_record l) eqn:Hr; simpl.
  - destruct (parse_line d l); [apply IH | reflexivity].
  - rewrite (parse_line_skip d l Hr). apply IH.
Qed.

(** C3 (as amended): [parseDMMScores] considers only the lines that begin
    with [ATOM] or [HETATM]: every other line is skipped without error and
    leaves the dictionary as it is, so the result is that of the record
    lines alone; a line that begins with one of the two tokens is never
    skipped, whatever else it holds: when it reaches column 22 it is
    processed as a record. *)
Theorem parseDMMScores_only_record_lines (d : gmap string string) (lines : list string) :
  parse_lines d lines = parse_lines d (List.filter is_record lines)
  /\ (forall line, is_record line = false -> parse_line d line = Ok d)
  /\ (forallb (fun l => negb (is_record l)) lines = true -> parse_lines d lines = Ok d)
  /\ (forall line, is_record line = true -> 21 < String.length line ->
        exists k, resId_of line = Ok k
          /\ parse_line d line =
               Ok (match d !! k with Some _ => d | None => <[k := score_of line]> d end)).
Proof.
  split; [apply parse_lines_filter|]. split; [apply parse_line_skip|]. split.
  - intros Hall. rewrite parse_lines_filter.
    replace (List.filter is_record lines) with (@nil string); [reflexivity|].
    induction lines as [|l lines IH]; simpl in *; [reflexivity|].
    apply andb_true_iff in Hall as [Hl Hrest].
    destruct (is_record l); [discriminate | auto].
  - intros line Hr Hlen. destruct (resId_of_long line Hlen) as [k Hk].
    exists k. split; [exact Hk | apply parse_line_record; assumption].
Qed.

Lemma parseDMMScores_only_record_lines_witness :
  parse_lines ∅ ["REMARK DMM scores" ++ Demo.nl; "END"] = Ok ∅
  /\ exists k, resId_of "HETATM    9  N   GLY A  11" = Ok k.
Proof.
  destruct (parseDMMScores_only_record_lines ∅ ["REMARK DMM scores" ++ Demo.nl; "END"])
    as (_ & _ & Hskip & Hrec).
  split; [apply Hskip; reflexivity|].
  destruct (Hrec "HETATM    9  N   GLY A  11" eq_refl) as (k & Hk & _);
    [vm_compute; lia | exists k; exact Hk].
Defined.

(** ** Locations *)

Lemma strip_prefix_app (d r : FS.loc) : FS.strip_prefix d (d ++ r)%list = Some r.
Proof.
  induction d as [|x d IH]; simpl; [reflexivity|].
  rewrite String.eqb_refl. exact IH.
Qed.

Lemma strip_prefix_Some (d p r : FS.loc) :
  FS.strip_prefix d p = Some r -> p = (d ++ r)%list.
Proof.
  revert p; induction d as [|x d IH]; intros p; simpl.
  - intros [= ->]; reflexivity.
  - destruct p as [|y p]; [discriminate|].
    destruct (String.eqb_spec x y) as [->|]; [|discriminate].
    intros Hp. f_equal. apply IH; assumption.
Qed.

Lemma under_app (d r : FS.loc) : FS.under d (d ++ r)%list = true.
Proof. unfold FS.under. rewrite strip_prefix_app. reflexivity. Qed.

Lemma under_spec (d p : FS.loc) :
  FS.under d p = true <-> exists r, p = (d ++ r)%list.
Proof.
  unfold FS.under. split.
  - destruct (FS.strip_prefix d p) as [r|] eqn:Hs; [|discriminate].
    intros _. exists r. apply strip_prefix_Some; assumption.
  - intros [r ->]. rewrite strip_prefix_app. reflexivity.
Qed.

Lemma under_trans (a b c : FS.loc) :
  FS.under a b = true -> FS.under b c = true -> FS.under a c = true.
Proof.
  rewrite !under_spec. intros [r ->] [r' ->]. exists (r ++ r')%list.
  rewrite <- app_assoc. reflexivity.
Qed.

(** Two locations with a common descendant lie on one branch. *)
Lemma under_common (a b p : FS.loc) :
  FS.under a p = true -> FS.under b p = true ->
  FS.under a b = true \/ FS.under b a = true.
Proof.
  rewrite !under_spec. intros [r Ha] [r' Hb]. subst p. revert b r r' Hb.
  induction a as [|x a IH]; intros b r r' Hb.
  - left. exists b. reflexivity.
  - destruct b as [|y b].
    + right. exists (x :: a). reflexivity.
    + simpl in Hb. injection Hb as -> Hb.
      destruct (IH b r r' Hb) as [[s ->]|[s ->]].
      * left. exists s. reflexivity.
      * right. exists s. reflexivity.
Qed.

Lemma above_under (q p : FS.loc) : FS.above q p = true -> FS.under q p = true.
Proof.
  unfold FS.above, FS.under. destruct (FS.strip_prefix q p) as [[|? ?]|]; auto.
Qed.

(** ** The monad *)

Section Relocation.

Context `{Host}.

Lemma bind_ok {A B} (m : M A) (k : A -> M B) (w w' : world) (a : A) :
  m w = (Ok a, w') -> bind m k w = k a w'.
Proof. intros Hm. unfold bind. rewrite Hm. reflexivity. Qed.

Lemma bind_raise {A B} (m : M A) (k : A -> M B) (w w' : world) (e : exn) :
  m w = (Raise e, w') -> bind m k w = (Raise e, w').
Proof. intros Hm. unfold bind. rewrite Hm. reflexivity. Qed.

Lemma bind_ok_inv {A B} (m : M A) (k : A -> M B) (w w2 : world) (b : B) :
  bind m k w = (Ok b, w2) ->
  exists a w1, m w = (Ok a, w1) /\ k a w1 = (Ok b, w2).
Proof.
  unfold bind. destruct (m w) as [[a|e] w1]; [eauto | discriminate].
Qed.

(** *** Relocation of the predictor's output *)

Lemma copytree_ok_inv (fs fs' : FS.t) (sn : string) (src : FS.loc)
    (dn : string) (dst : FS.loc) :
  FS.copytree fs sn src dn dst = Ok fs' ->
  fs src = Some FS.Dir /\ fs dst = None
  /\ fs' = (fun q =>
              match FS.strip_prefix dst q with
              | Some r => fs (src ++ r)%list
              | None =>
                  if FS.above q dst
                  then match fs q with None => Some FS.Dir | o => o end
                  else fs q
              end).
Proof.
  unfold FS.copytree, FS.exists_.
  destruct (fs src) as [[c|]|]; try discriminate.
  destruct (fs dst); try discriminate.
  destruct (existsb _ _); try discriminate.
  intros [= <-]. auto.
Qed.

Lemma rmtree_ok_inv (fs fs' : FS.t) (name : string) (p : FS.loc) :
  FS.rmtree fs name p = Ok fs' ->
  fs p = Some FS.Dir /\ fs' = (fun q => if FS.under p q then None else fs q).
Proof.
  unfold FS.rmtree. destruct (fs p) as [[c|]|]; try discriminate.
  intros [= <-]. auto.
Qed.

Lemma relocate_ok_inv (self : protocol) (w1 w2 : world) :
  DMMStep_relocate self w1 = (Ok tt, w2) ->
  exists fsc,
    FS.copytree (w_fs w1) (DMMDir self) (locate (DMMDir self))
      (_getExtraPath self "predictions") (locate (_getExtraPath self "predictions"))
      = Ok fsc
    /\ exists fsr,
      FS.rmtree fsc (DMMDir self) (locate (DMMDir self)) = Ok fsr
      /\ w2 = {| w_fs := fsr; w_log := w_log w1 |}.
Proof.
  unfold DMMStep_relocate, shutil_copytree, shutil_rmtree, bind, get_fs, lift, put_fs.
  simpl.
  destruct (FS.copytree _ _ _ _ _) as [fsc|] eqn:Hc; [|discriminate]. simpl.
  destruct (FS.rmtree _ _ _) as [fsr|] eqn:Hr; [|discriminate]. simpl.
  intros [= <-]. exists fsc. split; [reflexivity|].
  exists fsr. split; [exact Hr | reflexivity].
Qed.

(** Copying a tree elsewhere and removing the original. *)
Lemma copy_then_remove (fs fsc fsr : FS.t) (sn dn : string) (src dst : FS.loc) :
  FS.copytree fs sn src dn dst = Ok fsc ->
  FS.rmtree fsc sn src = Ok fsr ->
  FS.under src dst = false -> FS.under dst src = false ->
  fs src = Some FS.Dir
  /\ (forall r, fsr (src ++ r)%list = None)
  /\ (forall r, fsr (dst ++ r)%list = fs (src ++ r)%list)
  /\ (forall install q,
        FS.under install dst = false -> FS.under dst install = false ->
        FS.under install q = true -> FS.under src q = false ->
        fsr q = fs q).
Proof.
  intros Hcopy Hrm Hsd Hds.
  apply copytree_ok_inv in Hcopy as (Hsrc & Hdst & ->).
  apply rmtree_ok_inv in Hrm as (_ & ->).
  split; [exact Hsrc|]. split; [|split].
  - intros r. rewrite under_app. reflexivity.
  - intros r. destruct (FS.under src (dst ++ r)%list) eqn:Hu.
    + destruct (under_common src dst (dst ++ r)%list Hu (under_app dst r)); congruence.
    + rewrite strip_prefix_app. reflexivity.
  - intros install q Hid Hdi Hq Hnq. rewrite Hnq.
    destruct (FS.strip_prefix dst q) as [r|] eqn:Hs.
    + assert (Hdq : FS.under dst q = true) by (unfold FS.under; rewrite Hs; reflexivity).
      destruct (under_common install dst q Hq Hdq); congruence.
    + destruct (FS.above q dst) eqn:Hab; [|reflexivity].
      apply above_under in Hab.
      rewrite (under_trans install q dst Hq Hab) in Hid. discriminate.
Qed.

(** C7: when the subprocess has reported success and the predictor's
    output directory is not there, [DMMStep] raises [FileNotFoundError]
    for that directory; this is not the exception of a failed job, which
    is what a non-zero exit code raises. *)
Theorem DMMStep_missing_output_raises (self : protocol) (w w1 : world) :
  DMMStep_run self w = (Ok tt, w1) ->
  w_fs w1 (locate (DMMDir self)) = None ->
  DMMStep self w = (Raise (FileNotFoundError (DMMDir self)), w1)
  /\ (forall code, FileNotFoundError (DMMDir self) <> CalledProcessError code)
  /\ (forall w0 program args cwd,
        exit_code (w_log w0) (RunJob program args cwd) (w_fs w0) <> 0%Z ->
        exists code, fst (runJob program args cwd w0) = Raise (CalledProcessError code)).
Proof.
  intros Hrun Hmissing. split; [|split].
  - unfold DMMStep. rewrite (bind_ok _ _ _ _ _ Hrun).
    unfold DMMStep_relocate, shutil_copytree, bind, get_fs, lift. simpl.
    unfold FS.copytree. rewrite Hmissing. reflexivity.
  - intros code. discriminate.
  - intros w0 program args cwd Hcode. unfold runJob.
    destruct (Z.eqb_spec (exit_code (w_log w0) (RunJob program args cwd) (w_fs w0)) 0);
      [contradiction | eauto].
Qed.

End Relocation.

Section CommandLine.

Context `{Host}.

(** *** The predictor's command line *)

Lemma getLocalSequenceFile_eq (self : protocol) (w : world) :
  let extrapath := getLocalSequenceFile_extrapath self in
  let res := PosixPath.join_sep (removelast (PosixPath.split extrapath)) in
  let log := (w_log w ++ [Stdout "HAHA"] ++ [Stdout (abspath extrapath)]
                ++ [Stdout (abspath res)])%list in
  getLocalSequenceFile self w =
    match FS.copyfile (w_fs w) (getSequenceFile self) (locate (getSequenceFile self))
                      (abspath extrapath) (locate (abspath extrapath)) with
    | Ok fs' => (Ok extrapath, {| w_fs := fs'; w_log := log |})
    | Raise e => (Raise e, {| w_fs := w_fs w; w_log := log |})
    end.
Proof.
  unfold getLocalSequenceFile, shutil_copyfile, bind, print, get_fs, lift, put_fs, ret.
  simpl. rewrite <- !app_assoc. simpl.
  destruct (FS.copyfile _ _ _ _ _); reflexivity.
Qed.

(** C9 (as amended): when the sequence file can be copied into the run,
    [getDMMArgs] returns the string
    [' -m <map> -f <sequence> -A <aux> -c <contour> -o <out> -t 10 -T 10'],
    that is the specified form after one leading space, with the empty
    string for [<aux>] when no auxiliary model is given; [DMMStep] then
    launches one subprocess, on that string behind ['-p <binary>'] when
    it lacks the launcher name, with the predictor installation
    directory as working directory. *)
Theorem getDMMArgs_form_and_launch (self : protocol) (w : world) (fs' : FS.t) :
  let extrapath := getLocalSequenceFile_extrapath self in
  let args :=
    " " ++ spec_args (abspath (getLocalVolumeFile self))
                     (abspath extrapath)
                     (match af2Structure self with Some f => abspath f | None => "" end)
                     (str_float (contourLevel self))
                     (abspath (_getTmpPath self "predictions")) in
  FS.copyfile (w_fs w) (getSequenceFile self) (locate (getSequenceFile self))
              (abspath extrapath) (locate (abspath extrapath)) = Ok fs' ->
  exists w1,
    getDMMArgs self w = (Ok args, w1)
    /\ w_fs w1 = fs'
    /\ w_log (snd (DMMStep_run self w)) =
         (w_log w1 ++ [Stdout Plugin_getCondaActivationCmd;
                       Stdout (Plugin_getProtocolActivationCommand "DMM");
                       RunJob (DMMStep_program) (DMMStep_args args) Plugin_DMMBinary])%list.
Proof.
  intros extrapath args Hcopy.
  assert (Hargs : getDMMArgs self w =
            (Ok args, {| w_fs := fs';
                         w_log := (w_log w ++ [Stdout "HAHA"] ++ [Stdout (abspath extrapath)]
                           ++ [Stdout (abspath (PosixPath.join_sep
                                 (removelast (PosixPath.split extrapath))))])%list |})).
  { unfold getDMMArgs. unfold bind at 1. rewrite getLocalSequenceFile_eq.
    fold extrapath. rewrite Hcopy. reflexivity. }
  eexists. split; [exact Hargs|]. split; [reflexivity|].
  unfold DMMStep_run. rewrite (bind_ok _ _ _ _ _ Hargs).
  unfold bind, print, runJob. simpl.
  destruct (exit_code _ _ _ =? 0)%Z; simpl; rewrite <- !app_assoc; reflexivity.
Qed.

(** *** Volume header correction *)

(** C6: [convertInputStep] asks for the conversion and then for exactly
    two header fixes, the start-index fix first and the origin fix
    second, both with the origin shifts and the sampling rate of the
    input volume; it stops early only where one of these calls raises. *)
Theorem convertInputStep_two_fixes_in_order (self : protocol) (w : world) :
  let inVol := _getInputVolume self in
  let mrcFile := _getTmpPath self "inpVolume.mrc" in
  let calls :=
    [ImageConvert (vol_fileName inVol) mrcFile;
     FixFile mrcFile mrcFile (vol_shifts inVol) (vol_samplingRate inVol) START;
     FixFile mrcFile (getLocalVolumeFile self) (vol_shifts inVol)
             (vol_samplingRate inVol) ORIGIN] in
  (exists n, w_log (snd (convertInputStep self w)) = (w_log w ++ firstn n calls)%list)
  /\ (fst (convertInputStep self w) = Ok tt ->
      w_log (snd (convertInputStep self w)) = (w_log w ++ calls)%list)
  /\ ((forall log c fs, tool_raises log c fs = None) ->
      fst (convertInputStep self w) = Ok tt).
Proof.
  intros inVol mrcFile calls.
  unfold convertInputStep, bind, extern. fold inVol mrcFile. simpl.
  destruct (tool_raises (w_log w) _ _) eqn:H1; simpl.
  { split; [exists 1; reflexivity|]. split; [discriminate|].
    intros Hnone. rewrite Hnone in H1. discriminate. }
  destruct (tool_raises (w_log w ++ _) _ _) eqn:H2; simpl.
  { split; [exists 2; rewrite <- app_assoc; reflexivity|]. split; [discriminate|].
    intros Hnone. rewrite Hnone in H2. discriminate. }
  destruct (tool_raises ((w_log w ++ _) ++ _) _ _) eqn:H3; simpl.
  { split; [exists 3; rewrite <- !app_assoc; reflexivity|]. split; [discriminate|].
    intros Hnone. rewrite Hnone in H3. discriminate. }
  split; [exists 3; rewrite <- !app_assoc; reflexivity|].
  split; [intros _; rewrite <- !app_assoc; reflexivity | reflexivity].
Qed.

End CommandLine.

(** C9 fails as stated: the string [getDMMArgs] builds is not of the form
    ['-m <map> ... -T 10'], whatever stands for the five values: it starts
    with a space. *)
Lemma getDMMArgs_form_counterexample :
  fst (@getDMMArgs Demo.host Demo.self Demo.w0)
  = Ok (" -m /home/user/project/Runs/000007_ProtDMMValidation/extra/vol1_7.mrc"
        ++ " -f /home/user/project/Runs/000007_ProtDMMValidation/extra/seq_7.fasta"
        ++ " -A  -c 0.0"
        ++ " -o /home/user/project/Runs/000007_ProtDMMValidation/tmp/predictions"
        ++ " -t 10 -T 10")
  /\ ~ exists m f a c o,
         fst (@getDMMArgs Demo.host Demo.self Demo.w0) = Ok (@spec_args m f a c o).
Proof.
  split; [vm_compute; reflexivity|].
  intros (m & f & a & c & o & Heq). vm_compute in Heq. discriminate.
Qed.

Lemma getDMMArgs_form_and_launch_witness :
  exists w1,
    fst (@getDMMArgs Demo.host Demo.self Demo.w0)
    = Ok (" -m /home/user/project/Runs/000007_ProtDMMValidation/extra/vol1_7.mrc"
          ++ " -f /home/user/project/Runs/000007_ProtDMMValidation/extra/seq_7.fasta"
          ++ " -A  -c 0.0"
          ++ " -o /home/user/project/Runs/000007_ProtDMMValidation/tmp/predictions"
          ++ " -t 10 -T 10")
    /\ @getDMMArgs Demo.host Demo.self Demo.w0
       = (fst (@getDMMArgs Demo.host Demo.self Demo.w0), w1).
Proof.
  set (extrapath := @getLocalSequenceFile_extrapath Demo.host Demo.self).
  destruct (FS.copyfile Demo.fs0 "/data/seq.fasta" ["data"; "seq.fasta"]
              (@abspath Demo.host extrapath) (@locate Demo.host (@abspath Demo.host extrapath)))
    as [fs'|e] eqn:Hcopy; [|vm_compute in Hcopy; discriminate].
  destruct (@getDMMArgs_form_and_launch Demo.host Demo.self Demo.w0 fs' Hcopy)
    as (w1 & Hargs & _).
  exists w1. rewrite Hargs. split; reflexivity.
Defined.

Lemma convertInputStep_two_fixes_in_order_witness :
  w_log (snd (@convertInputStep Demo.host Demo.self Demo.w0))
  = [ImageConvert "Runs/000002_ProtImportVolumes/extra/vol1.mrc"
                  "Runs/000007_ProtDMMValidation/tmp/inpVolume.mrc";
     FixFile "Runs/000007_ProtDMMValidation/tmp/inpVolume.mrc"
             "Runs/000007_ProtDMMValidation/tmp/inpVolume.mrc" (0, 0, 0)%Z 2%Z START;
     FixFile "Runs/000007_ProtDMMValidation/tmp/inpVolume.mrc"
             "Runs/000007_ProtDMMValidation/extra/vol1_7.mrc" (0, 0, 0)%Z 2%Z ORIGIN].
Proof.
  destruct (@convertInputStep_two_fixes_in_order Demo.host Demo.self Demo.w0)
    as (_ & Hlog & Hok).
  rewrite (Hlog (Hok (fun _ _ _ => eq_refl))). reflexivity.
Defined.

Section Output.

Context `{Host}.

(** *** Waiting for the visualiser *)

Lemma after_sleeps_log (k : nat) (w : world) :
  w_log (after_sleeps k w) = (w_log w ++ repeat (Sleep 1) k)%list.
Proof.
  revert w; induction k as [|k IH]; intros w; simpl.
  - rewrite app_nil_r. reflexivity.
  - rewrite IH. simpl. rewrite <- app_assoc. reflexivity.
Qed.

Lemma poll_step (outFile : string) (fuel : nat) (w : world) :
  poll (S fuel) outFile w =
    if FS.exists_ (w_fs w) (locate outFile) then (Ok true, w)
    else poll fuel outFile (snd (sleep 1 w)).
Proof.
  cbn [poll]. unfold path_exists, get_fs, ret, bind. cbn beta iota.
  destruct (FS.exists_ (w_fs w) (locate outFile)); [reflexivity|].
  unfold sleep. reflexivity.
Qed.

Lemma poll_leaves (outFile : string) (k fuel : nat) (w : world) :
  (forall j, j < k -> FS.exists_ (w_fs (after_sleeps j w)) (locate outFile) = false) ->
  FS.exists_ (w_fs (after_sleeps k w)) (locate outFile) = true ->
  k < fuel ->
  poll fuel outFile w = (Ok true, after_sleeps k w).
Proof.
  revert fuel w; induction k as [|k IH]; intros fuel w Hbefore Hk Hfuel;
    (destruct fuel as [|fuel]; [lia|]); rewrite poll_step.
  - cbn [after_sleeps] in Hk. rewrite Hk. reflexivity.
  - pose proof (Hbefore 0 ltac:(lia)) as H0. cbn [after_sleeps] in H0. rewrite H0.
    cbn [after_sleeps]. apply IH; [|assumption|lia].
    intros j Hj. apply (Hbefore (S j)). lia.
Qed.

Lemma poll_goes_on (outFile : string) (fuel : nat) (w : world) :
  (forall j, FS.exists_ (w_fs (after_sleeps j w)) (locate outFile) = false) ->
  poll fuel outFile w = (Ok false, after_sleeps fuel w).
Proof.
  revert w; induction fuel as [|fuel IH]; intros w Hnever; [reflexivity|].
  rewrite poll_step. pose proof (Hnever 0) as H0. cbn [after_sleeps] in H0.
  rewrite H0. cbn [after_sleeps]. apply IH. intros j. apply (Hnever (S j)).
Qed.

(** C10 (as amended): when the chimera plugin can be imported and the
    visualiser has been launched, [chimeraResample] checks for the output
    file once a second without any bound: if the file first exists at
    the [k]-th check it returns the output path then, after [k] sleeps of
    one second, and if the file never appears no number of checks ends
    the loop.  When the plugin cannot be imported, [weakImport] swallows
    the error and the output path is returned at once, whether or not
    the file exists. *)
Theorem chimeraResample_waits_for_output (self : protocol)
    (inVolFile : string) (newSR : Real) (outFile : string) (w : world) :
  (chimera_importable = false ->
     forall fuel, chimeraResample self fuel inVolFile newSR outFile w = (Ok (Some outFile), w))
  /\ (chimera_importable = true ->
      forall w1,
        chimeraResample_launch self inVolFile newSR outFile w = (Ok tt, w1) ->
        let present j := FS.exists_ (w_fs (after_sleeps j w1)) (locate outFile) in
        (forall k, (forall j, j < k -> present j = false) -> present k = true ->
           forall fuel, k < fuel ->
             chimeraResample self fuel inVolFile newSR outFile w
             = (Ok (Some outFile), after_sleeps k w1)
             /\ w_log (after_sleeps k w1) = (w_log w1 ++ repeat (Sleep 1) k)%list)
        /\ ((forall j, present j = false) ->
            forall fuel,
              chimeraResample self fuel inVolFile newSR outFile w
              = (Ok None, after_sleeps fuel w1))).
Proof.
  unfold chimeraResample. split; intros Himp; rewrite Himp; [reflexivity|].
  intros w1 Hlaunch. split.
  - intros k Hbefore Hk fuel Hfuel. split; [|apply after_sleeps_log].
    rewrite (bind_ok _ _ _ _ _ Hlaunch).
    rewrite (bind_ok _ _ _ _ _ (poll_leaves outFile k fuel w1 Hbefore Hk Hfuel)).
    reflexivity.
  - intros Hnever fuel.
    rewrite (bind_ok _ _ _ _ _ Hlaunch).
    rewrite (bind_ok _ _ _ _ _ (poll_goes_on outFile fuel w1 Hnever)).
    reflexivity.
Qed.

(** *** The output step *)

Lemma parseDMMScores_world (pdbFile : string) (w : world) :
  snd (parseDMMScores pdbFile w) = w.
Proof.
  unfold parseDMMScores, bind, get_fs, lift. simpl.
  destruct (FS.read_file _ _ _); reflexivity.
Qed.

(** [createOutputStep] gets as far as the parse and no further. *)
Lemma createOutputStep_outcome (self : protocol) (w : world) :
  createOutputStep self w
  = (match fst (parseDMMScores (outDMMFile self) w) with
     | Ok _ => Raise (AttributeError "inputAtomStruct")
     | Raise e => Raise e
     end, w).
Proof.
  pose proof (parseDMMScores_world (outDMMFile self) w) as Hw.
  unfold createOutputStep. unfold bind at 1.
  destruct (parseDMMScores (outDMMFile self) w) as [[scores|e] w0];
    cbn [fst snd] in *; subst w0; reflexivity.
Qed.

End Output.

(** C10 fails as stated: without the chimera plugin, [chimeraResample]
    returns the output path at once although the output file does not
    exist, and neither runs the visualiser nor sleeps. *)
Lemma chimeraResample_counterexample :
  @chimeraResample Demo.bare_host Demo.bare_self 5 "vol.mrc" 1%Z Demo.resampled Demo.bare_w0
  = (Ok (Some Demo.resampled), Demo.bare_w0)
  /\ FS.exists_ (w_fs Demo.bare_w0) (@locate Demo.bare_host Demo.resampled) = false
  /\ w_log Demo.bare_w0 = [].
Proof. repeat split. Qed.

Lemma chimeraResample_waits_for_output_witness :
  fst (@chimeraResample Demo.host Demo.self 5 "vol.mrc" 1%Z Demo.resampled Demo.w0)
  = Ok (Some Demo.resampled)
  /\ List.filter (fun c => match c with Sleep _ => true | _ => false end)
       (w_log (snd (@chimeraResample Demo.host Demo.self 5 "vol.mrc" 1%Z
                      Demo.resampled Demo.w0)))
     = [Sleep 1; Sleep 1].
Proof.
  set (w1 := snd (@chimeraResample_launch Demo.host Demo.self "vol.mrc" 1%Z
                    Demo.resampled Demo.w0)).
  assert (Hlaunch : @chimeraResample_launch Demo.host Demo.self "vol.mrc" 1%Z
                      Demo.resampled Demo.w0 = (Ok tt, w1))
    by (vm_compute; reflexivity).
  destruct (@chimeraResample_waits_for_output Demo.host Demo.self "vol.mrc" 1%Z
              Demo.resampled Demo.w0) as (_ & Himp).
  destruct (Himp eq_refl w1 Hlaunch) as (Hfound & _).
  assert (Hbefore : forall j, j < 2 ->
            FS.exists_ (w_fs (@after_sleeps Demo.host j w1))
                       (@locate Demo.host Demo.resampled) = false).
  { intros [|[|j]] Hj; [reflexivity | reflexivity | lia]. }
  destruct (Hfound 2 Hbefore eq_refl 5 ltac:(lia)) as (Hrun & Hlog).
  rewrite Hrun. split; [reflexivity|]. cbn [snd]. rewrite Hlog.
  vm_compute. reflexivity.
Defined.

(** C8: on the run of the scenario, after its [DMMStep], the score file
    parses to the scores of the two residues, and [createOutputStep] then
    raises [AttributeError] for [inputAtomStruct], the attribute it reads
    to convert the structure: the state is left as it was, no dictionary
    has been merged and none written. *)
Theorem createOutputStep_stops_before_merge :
  (exists scores,
     fst (@parseDMMScores Demo.host (@outDMMFile Demo.host Demo.self) Scenario.after_DMMStep)
     = Ok scores
     /\ scores !! "A:10" = Some "0.50" /\ scores !! "A:11" = Some "0.30")
  /\ @createOutputStep Demo.host Demo.self Scenario.after_DMMStep
     = (Raise (AttributeError "inputAtomStruct"), Scenario.after_DMMStep)
  /\ (forall path dic,
        ~ In (WriteLowLevel path dic)
             (w_log (snd (@createOutputStep Demo.host Demo.self Scenario.after_DMMStep)))).
Proof.
  assert (Hparse : fst (@parseDMMScores Demo.host (@outDMMFile Demo.host Demo.self)
                          Scenario.after_DMMStep)
                   = Ok (<["A:11" := "0.30"]> {["A:10" := "0.50"]}))
    by (vm_compute; reflexivity).
  assert (Hstep : @createOutputStep Demo.host Demo.self Scenario.after_DMMStep
                  = (Raise (AttributeError "inputAtomStruct"), Scenario.after_DMMStep)).
  { rewrite (@createOutputStep_outcome Demo.host), Hparse. reflexivity. }
  split; [|split].
  - eexists. split; [exact Hparse|]. split; reflexivity.
  - exact Hstep.
  - intros path dic. rewrite Hstep. cbn [snd]. vm_compute.
    intros Hin. repeat (destruct Hin as [Hin | Hin]; [discriminate|]). exact Hin.
Qed.

(** ** Paths *)

Section PathLemmas.

Import PosixPath.

Lemma split_not_nil (s : string) : split s <> [].
Proof.
induction s as [|c s IH]; simpl; [discriminate|].
destruct (Ascii.eqb c sep); [discriminate|].
destruct (split s); discriminate.
Qed.

Lemma split_app_sep (a b : string) :
split (a ++ "/" ++ b) = (split a ++ split b)%list.
Proof.
induction a as [|c a IH]; [reflexivity|].
change (String c a ++ "/" ++ b) with (String c (a ++ "/" ++ b)).
cbn [split]. rewrite IH.
destruct (Ascii.eqb c sep); [reflexivity|].
destruct (split a) as [|h t] eqn:Ha; [|reflexivity].
exfalso. apply (split_not_nil a). assumption.
Qed.

Lemma isabs_app (a b : string) : a <> "" -> isabs (a ++ b) = isabs a.
Proof. destruct a as [|c a]; [congruence|]. intros _. reflexivity. Qed.

Lemma endswith_sep_app (a b : string) :
b <> "" -> endswith_sep (a ++ b) = endswith_sep b.
Proof.
intros Hb. induction a as [|c a IH]; [reflexivity|].
simpl. rewrite IH. destruct (a ++ b) eqn:Hab; [|reflexivity].
destruct a; [simpl in Hab; congruence | discriminate].
Qed.

Lemma endswith_sep_inv (a : string) :
endswith_sep a = true -> exists a0, a = a0 ++ "/".
Proof.
induction a as [|c a IH]; simpl; [discriminate|].
destruct a as [|c' a].
- intros Hc. apply Ascii.eqb_eq in Hc. subst c. exists "". reflexivity.
- intros Ha. destruct (IH Ha) as [a0 Ha0]. exists (String c a0).
  simpl. rewrite <- Ha0. reflexivity.
Qed.

Lemma rooted_flag (p : string) : (0 <? initial_slashes p)%nat = isabs p.
Proof.
unfold initial_slashes, isabs. destruct (startswith p "/"); [|reflexivity].
destruct (startswith p "//" && negb (startswith p "///")); reflexivity.
Qed.

Lemma norm_comps_stack (p : string) : norm_comps p = rev (stack p).
Proof. unfold norm_comps, stack. rewrite rooted_flag. reflexivity. Qed.

Lemma no_sep_split (c : string) : no_sep c = true -> split c = [c].
Proof.
induction c as [|x c IH]; [reflexivity|]. cbn [no_sep split].
intros Hc. apply andb_true_iff in Hc as [Hx Hc].
apply negb_true_iff in Hx. rewrite Hx, (IH Hc). reflexivity.
Qed.

Lemma proper_push (c : string) (st : list string) (rooted : bool) :
proper c = true -> norm_step rooted st c = c :: st.
Proof.
unfold proper, norm_step. rewrite !andb_true_iff, !negb_true_iff.
intros [[[_ He] Hd] Hdd]. rewrite He, Hd, Hdd. reflexivity.
Qed.

Lemma proper_relative (c : string) : proper c = true -> startswith c "/" = false.
Proof.
destruct c as [|x c]; [reflexivity|]. unfold proper. cbn [no_sep startswith].
rewrite !andb_true_iff, negb_true_iff. intros [[[[Hx _] _] _] _].
unfold sep in Hx. rewrite Ascii.eqb_sym, Hx. reflexivity.
Qed.

Lemma proper_not_empty (c : string) : proper c = true -> c <> "".
Proof. intros Hc ->. discriminate. Qed.

Lemma proper_split (c : string) : proper c = true -> split c = [c].
Proof.
intros Hc. apply no_sep_split. unfold proper in Hc.
rewrite !andb_true_iff in Hc. tauto.
Qed.

Lemma stack_snoc (p c : string) :
p <> "" -> proper c = true -> stack (p ++ "/" ++ c) = c :: stack p.
Proof.
intros Hp Hc. unfold stack.
rewrite (isabs_app p _ Hp), split_app_sep, (proper_split c Hc), fold_left_app.
cbn [fold_left]. apply proper_push. assumption.
Qed.

Lemma stack_trailing (p : string) : p <> "" -> stack (p ++ "/") = stack p.
Proof.
intros Hp. change (p ++ "/") with (p ++ "/" ++ ""). unfold stack.
rewrite (isabs_app p _ Hp), split_app_sep, fold_left_app. reflexivity.
Qed.

Lemma stack_after_sep (p c : string) :
endswith_sep p = true -> proper c = true -> stack (p ++ c) = c :: stack p.
Proof.
intros Hp Hc. destruct (endswith_sep_inv p Hp) as [p0 ->].
rewrite append_assoc. destruct p0 as [|x p0].
- unfold stack. change ("" ++ "/" ++ c) with (String sep c).
  cbn [isabs startswith split Ascii.eqb]. simpl.
  rewrite (proper_split c Hc). cbn [fold_left].
  rewrite (proper_push c _ _ Hc). reflexivity.
- rewrite stack_snoc, stack_trailing; [reflexivity|discriminate|discriminate|assumption].
Qed.

Lemma stack_join (a c : string) :
proper c = true -> stack (join a c) = c :: stack a.
Proof.
intros Hc. unfold join. rewrite (proper_relative c Hc).
destruct (String.eqb_spec a "") as [->|Ha]; cbn [orb].
- unfold stack. change ("" ++ c) with c. unfold isabs.
  rewrite (proper_relative c Hc), (proper_split c Hc). cbn [fold_left].
  apply proper_push. assumption.
- destruct (endswith_sep a) eqn:He.
  + apply stack_after_sep; assumption.
  + apply stack_snoc; assumption.
Qed.

Lemma join_not_empty (a c : string) : c <> "" -> join a c <> "".
Proof.
intros Hc. unfold join. destruct (startswith c "/"); [assumption|].
intros Heq. destruct (String.eqb a "" || endswith_sep a);
  apply (f_equal String.length) in Heq; rewrite !length_append in Heq;
  destruct c; simpl in Heq; try lia; congruence.
Qed.

Lemma isabs_join (a c : string) :
a <> "" -> startswith c "/" = false -> isabs (join a c) = isabs a.
Proof.
intros Ha Hc. unfold join. rewrite Hc.
destruct (String.eqb a "" || endswith_sep a); apply isabs_app; assumption.
Qed.

Lemma endswith_sep_join (a c : string) :
c <> "" -> startswith c "/" = false -> endswith_sep (join a c) = endswith_sep c.
Proof.
intros Hc Hrel. unfold join. rewrite Hrel.
destruct (String.eqb a "" || endswith_sep a).
- apply endswith_sep_app; assumption.
- rewrite endswith_sep_app; [|destruct c; discriminate].
  apply (endswith_sep_app "/" c Hc).
Qed.

Lemma join_assoc (cwd a c : string) :
a <> "" -> startswith a "/" = false -> startswith c "/" = false ->
join cwd (join a c) = join (join cwd a) c.
Proof.
intros Ha Hra Hrc.
assert (Hrj : startswith (join a c) "/" = false).
{ pose proof (isabs_join a c Ha Hrc) as Hj. unfold isabs in Hj. congruence. }
assert (He : endswith_sep (join cwd a) = endswith_sep a)
  by (apply endswith_sep_join; assumption).
assert (Hn : String.eqb (join cwd a) "" = false).
{ apply String.eqb_neq. apply join_not_empty. assumption. }
unfold join at 1 3. rewrite Hrj, Hrc, Hn, He. cbn [orb].
unfold join. rewrite Hra, Hrc.
apply String.eqb_neq in Ha. rewrite Ha. cbn [orb].
destruct (String.eqb cwd "" || endswith_sep cwd), (endswith_sep a);
  rewrite ?append_assoc; reflexivity.
Qed.

Lemma stack_anchored_join (cwd a c : string) :
proper c = true ->
stack (anchored cwd (join a c)) = c :: stack (anchored cwd a).
Proof.
intros Hc. pose proof (proper_relative c Hc) as Hrel.
destruct (String.eqb_spec a "") as [->|Ha].
- unfold anchored. change (join "" c) with (if startswith c "/" then c else c).
  rewrite Hrel. unfold isabs. rewrite Hrel. cbn [startswith].
  rewrite (stack_join cwd c Hc). f_equal.
  unfold join. cbn [startswith].
  destruct (String.eqb_spec cwd "") as [->|Hcwd]; [reflexivity|]. cbn [orb].
  destruct (endswith_sep cwd).
  + rewrite append_nil_r. reflexivity.
  + symmetry. apply stack_trailing. assumption.
- unfold anchored. rewrite (isabs_join a c Ha Hrel).
  destruct (isabs a) eqn:Habs.
  + apply stack_join. assumption.
  + rewrite join_assoc by assumption. apply stack_join. assumption.
Qed.

(** Joining a proper component to a path adds it to the location. *)
Lemma resolve_join (cwd a c : string) :
proper c = true ->
FS.resolve cwd (join a c) = (FS.resolve cwd a ++ [c])%list.
Proof.
intros Hc. unfold FS.resolve. rewrite !norm_comps_stack.
rewrite (stack_anchored_join cwd a c Hc). reflexivity.
Qed.

(** [normpath] returns a path that denotes the same location. *)

Lemma split_no_sep (p : string) : Forall (fun c => no_sep c = true) (split p).
Proof.
induction p as [|x p IH]; cbn [split]; [repeat constructor|].
destruct (Ascii.eqb x sep) eqn:Hx; [constructor; [reflexivity | exact IH]|].
destruct (split p) as [|h t]; [repeat constructor; cbn [no_sep]; rewrite Hx; reflexivity|].
inversion IH as [|? ? Hh Ht]; subst. constructor; [|exact Ht].
cbn [no_sep]. rewrite Hx, Hh. reflexivity.
Qed.

Lemma split_join_sep (cs : list string) :
cs <> [] -> Forall (fun c => no_sep c = true) cs -> split (join_sep cs) = cs.
Proof.
induction cs as [|c cs IH]; [congruence|]. intros _ Hall.
inversion Hall as [|? ? Hc Hcs]; subst.
destruct cs as [|c' cs]; [apply no_sep_split; assumption|].
change (join_sep (c :: c' :: cs)) with (c ++ "/" ++ join_sep (c' :: cs)).
rewrite split_app_sep, (no_sep_split c Hc), IH; [reflexivity | discriminate | assumption].
Qed.

Lemma proper_no_sep (c : string) : proper c = true -> no_sep c = true.
Proof. unfold proper. rewrite !andb_true_iff. tauto. Qed.

Lemma norm_step_proper (st : list string) (c : string) :
no_sep c = true -> Forall (fun c => proper c = true) st ->
Forall (fun c => proper c = true) (norm_step true st c).
Proof.
intros Hc Hst. unfold norm_step.
destruct (String.eqb c "" || String.eqb c ".") eqn:Hskip; [assumption|].
apply orb_false_iff in Hskip as [He Hd].
destruct (String.eqb c "..") eqn:Hdd; cbn [negb orb andb].
- destruct st as [|h st]; [constructor|].
  inversion Hst as [|? ? Hh Hrest]; subst.
  assert (Hhd : String.eqb h ".." = false).
  { unfold proper in Hh. rewrite !andb_true_iff, !negb_true_iff in Hh. tauto. }
  rewrite Hhd. assumption.
- constructor; [|assumption]. unfold proper. rewrite Hc, He, Hd, Hdd. reflexivity.
Qed.

Lemma fold_norm_proper (l st : list string) :
Forall (fun c => no_sep c = true) l -> Forall (fun c => proper c = true) st ->
Forall (fun c => proper c = true) (fold_left (norm_step true) l st).
Proof.
revert st; induction l as [|c l IH]; intros st Hl Hst; [assumption|].
inversion Hl; subst. cbn [fold_left]. apply IH; [assumption|].
apply norm_step_proper; assumption.
Qed.

Lemma fold_norm_push (l st : list string) (rooted : bool) :
Forall (fun c => proper c = true) l ->
fold_left (norm_step rooted) l st = (rev l ++ st)%list.
Proof.
revert st; induction l as [|c l IH]; intros st Hl; [reflexivity|].
inversion Hl; subst. cbn [fold_left]. rewrite proper_push by assumption.
rewrite IH by assumption. simpl. rewrite <- app_assoc. reflexivity.
Qed.

Lemma norm_comps_proper (p : string) :
isabs p = true -> Forall (fun c => proper c = true) (norm_comps p).
Proof.
intros Hp. rewrite norm_comps_stack. apply Forall_rev. unfold stack. rewrite Hp.
apply fold_norm_proper; [apply split_no_sep | constructor].
Qed.

Lemma stack_rendered (k : nat) (cs : list string) :
0 < k <= 2 -> Forall (fun c => proper c = true) cs ->
stack (slashes k ++ join_sep cs) = rev cs.
Proof.
intros Hk Hcs.
assert (Hfold : fold_left (norm_step true) (split (join_sep cs)) [] = rev cs).
{ destruct cs as [|c cs]; [reflexivity|].
  rewrite split_join_sep; [|discriminate|].
  - rewrite fold_norm_push by assumption. apply app_nil_r.
  - eapply Forall_impl; [exact Hcs|]. apply proper_no_sep. }
destruct k as [|[|[|k]]]; try lia; unfold stack.
- change (slashes 1 ++ join_sep cs) with (String sep (join_sep cs)).
  cbn [isabs startswith split Ascii.eqb]. simpl. exact Hfold.
- change (slashes 2 ++ join_sep cs) with (String sep (String sep (join_sep cs))).
  cbn [isabs startswith split Ascii.eqb]. simpl. exact Hfold.
Qed.

Lemma initial_slashes_rooted (p : string) :
isabs p = true -> 0 < initial_slashes p <= 2.
Proof.
intros Hp. unfold initial_slashes. unfold isabs in Hp. rewrite Hp.
destruct (startswith p "//" && negb (startswith p "///")); lia.
Qed.

Lemma normpath_rooted (p : string) :
isabs p = true ->
normpath p = slashes (initial_slashes p) ++ join_sep (norm_comps p).
Proof.
intros Hp. pose proof (initial_slashes_rooted p Hp) as Hk. unfold normpath.
destruct (String.eqb_spec p "") as [->|_]; [discriminate|].
destruct (initial_slashes p) as [|k]; [lia|]. reflexivity.
Qed.

Lemma anchored_isabs (cwd p : string) :
isabs cwd = true -> isabs (anchored cwd p) = true.
Proof.
intros Hcwd. unfold anchored. destruct (isabs p) eqn:Hp; [assumption|].
unfold join. unfold isabs in Hp. rewrite Hp.
assert (Hne : cwd <> "") by (intros ->; discriminate).
destruct (String.eqb cwd "" || endswith_sep cwd); rewrite isabs_app; assumption.
Qed.

Lemma resolve_normpath (cwd p : string) :
isabs p = true -> FS.resolve cwd (normpath p) = norm_comps p.
Proof.
intros Hp. rewrite (normpath_rooted p Hp).
pose proof (initial_slashes_rooted p Hp) as Hk.
pose proof (norm_comps_proper p Hp) as Hcs.
unfold FS.resolve, anchored.
assert (Habs : isabs (slashes (initial_slashes p) ++ join_sep (norm_comps p)) = true).
{ destruct (initial_slashes p) as [|k]; [lia | reflexivity]. }
rewrite Habs, norm_comps_stack, stack_rendered by assumption.
apply rev_involutive.
Qed.

Lemma resolve_abspath (cwd p : string) :
isabs cwd = true ->
FS.resolve cwd (PosixPath.abspath cwd p) = FS.resolve cwd p.
Proof.
intros Hcwd. unfold PosixPath.abspath.
apply resolve_normpath. apply anchored_isabs. assumption.
Qed.

Lemma under_app_same (d a b : FS.loc) :
FS.under (d ++ a)%list (d ++ b)%list = FS.under a b.
Proof.
unfold FS.under. induction d as [|x d IH]; [reflexivity|].
simpl. rewrite String.eqb_refl. exact IH.
Qed.

(** File names *)

Lemma no_sep_app (a b : string) : no_sep (a ++ b) = no_sep a && no_sep b.
Proof.
  induction a as [|x a IH]; [reflexivity|].
  change (String x a ++ b) with (String x (a ++ b)). cbn [no_sep].
  rewrite IH, andb_assoc. reflexivity.
Qed.

Lemma no_sep_contains (s : string) : no_sep s = true -> contains "/" s = false.
Proof.
  induction s as [|x s IH]; [reflexivity|]. cbn [no_sep contains startswith].
  rewrite andb_true_iff, negb_true_iff. intros [Hx Hs].
  unfold sep in Hx. rewrite Ascii.eqb_sym, Hx, (IH Hs). reflexivity.
Qed.

Lemma contains_sep_app (a b : string) : contains "/" (a ++ "/" ++ b) = true.
Proof.
  apply contains_spec. exists a, b. reflexivity.
Qed.

Lemma no_sep_last (l : list string) :
  Forall (fun c => no_sep c = true) l -> no_sep (List.last l "") = true.
Proof.
  induction 1 as [|c l Hc Hl IH]; [reflexivity|].
  destruct l; [exact Hc | exact IH].
Qed.

Lemma basename_no_sep (p : string) : no_sep (basename p) = true.
Proof. unfold basename. apply no_sep_last. apply split_no_sep. Qed.

Lemma basename_app_sep (a c : string) :
  no_sep c = true -> basename (a ++ "/" ++ c) = c.
Proof.
  intros Hc. unfold basename. rewrite split_app_sep, (no_sep_split c Hc).
  apply last_last.
Qed.

Lemma rsplit_dot_ext (x : string) : rsplit_dot (x ++ ".mrc") = Some (x, ".mrc").
Proof.
  induction x as [|c x IH]; [reflexivity|].
  change (String c x ++ ".mrc") with (String c (x ++ ".mrc")).
  cbn [rsplit_dot]. rewrite IH. reflexivity.
Qed.

Lemma all_dots_underscore (a b : string) : all_dots (a ++ "_" ++ b) = false.
Proof.
  induction a as [|c a IH]; [reflexivity|].
  change (String c a ++ "_" ++ b) with (String c (a ++ "_" ++ b)).
  cbn [all_dots]. rewrite IH. apply andb_false_r.
Qed.

Lemma splitext_root_no_sep (y : string) :
  no_sep y = true -> splitext_root y = fst (splitext_name y).
Proof.
  destruct y as [|c y]; [reflexivity|]. cbn [no_sep splitext_root].
  rewrite andb_true_iff, negb_true_iff. intros [Hc Hy].
  rewrite Hc, (no_sep_contains y Hy). reflexivity.
Qed.

Lemma splitext_root_app_sep (a y : string) :
  no_sep y = true ->
  splitext_root (a ++ "/" ++ y) = a ++ "/" ++ fst (splitext_name y).
Proof.
  intros Hy. induction a as [|c a IH].
  - change ("" ++ "/" ++ y) with (String sep y). cbn [splitext_root].
    rewrite Ascii.eqb_refl. cbn [orb]. rewrite (splitext_root_no_sep y Hy). reflexivity.
  - change (String c a ++ "/" ++ y) with (String c (a ++ "/" ++ y)).
    cbn [splitext_root]. rewrite contains_sep_app, orb_true_r, IH. reflexivity.
Qed.

Lemma str_nat_no_sep (n : nat) : no_sep (str_nat n) = true.
Proof.
  unfold str_nat. generalize (Nat.to_uint n). intros d. unfold NilZero.string_of_uint.
  assert (Hd : no_sep (NilEmpty.string_of_uint d) = true)
    by (induction d; cbn [NilEmpty.string_of_uint no_sep]; try rewrite IHd; reflexivity).
  destruct d; try exact Hd; reflexivity.
Qed.

(** A name [<base>_<number>] with [<base>] free of separators. *)
Lemma numbered_name_proper (o : string) (n : nat) :
  no_sep o = true -> proper (o ++ "_" ++ str_nat n) = true.
Proof.
  intros Ho. unfold proper.
  rewrite !no_sep_app, Ho, str_nat_no_sep. cbn [no_sep Ascii.eqb andb negb].
  assert (Hne : forall t, all_dots t = true -> String.eqb (o ++ "_" ++ str_nat n) t = false).
  { intros t Ht. apply String.eqb_neq. intros Heq.
    rewrite <- Heq, all_dots_underscore in Ht. discriminate. }
  rewrite (Hne "" eq_refl), (Hne "." eq_refl), (Hne ".." eq_refl). reflexivity.
Qed.

Lemma join_proper (a c : string) :
  a <> "" -> endswith_sep a = false -> startswith c "/" = false -> join a c = a ++ "/" ++ c.
Proof.
  intros Ha He Hc. unfold join. rewrite Hc, He.
  apply String.eqb_neq in Ha. rewrite Ha. reflexivity.
Qed.

End PathLemmas.

Section Paths.

Context `{Host}.

Lemma locate_abspath (p : string) : locate (abspath p) = locate p.
Proof. apply resolve_abspath. apply getcwd_isabs. Qed.

Lemma locate_join (a c : string) :
  PosixPath.proper c = true -> locate (PosixPath.join a c) = (locate a ++ [c])%list.
Proof. apply resolve_join. Qed.

Lemma join_two (J a b : string) :
  J <> "" -> PosixPath.endswith_sep J = false ->
  a <> "" -> startswith a "/" = false -> PosixPath.endswith_sep a = false ->
  startswith b "/" = false ->
  PosixPath.join J (a ++ "/" ++ b) = PosixPath.join (PosixPath.join J a) b.
Proof.
  intros HJ HJe Ha Hra Hae Hrb.
  assert (Hab : startswith (a ++ "/" ++ b) "/" = false).
  { pose proof (isabs_app a ("/" ++ b) Ha) as Hi. unfold PosixPath.isabs in Hi. congruence. }
  assert (Hn : String.eqb (PosixPath.join J a) "" = false).
  { apply String.eqb_neq. apply join_not_empty. assumption. }
  assert (He : PosixPath.endswith_sep (PosixPath.join J a) = false).
  { rewrite endswith_sep_join; assumption. }
  unfold PosixPath.join at 1 2. rewrite Hab, Hrb, Hn, He.
  apply String.eqb_neq in HJ. rewrite HJ, HJe. cbn [orb].
  unfold PosixPath.join. rewrite Hra, HJ, HJe. cbn [orb].
  rewrite !append_assoc. reflexivity.
Qed.

Lemma locate_tmp (self : protocol) (c : string) :
  PosixPath.proper c = true ->
  locate (_getTmpPath self c) = (locate (workingDir self) ++ ["tmp"; c])%list.
Proof.
  intros Hc. unfold _getTmpPath, PosixPath.join3.
  rewrite (locate_join _ c Hc), (locate_join _ "tmp" eq_refl), <- app_assoc.
  reflexivity.
Qed.

Lemma locate_extra (self : protocol) (c : string) :
  PosixPath.proper c = true ->
  locate (_getExtraPath self c) = (locate (workingDir self) ++ ["extra"; c])%list.
Proof.
  intros Hc. unfold _getExtraPath, PosixPath.join3.
  rewrite (locate_join _ c Hc), (locate_join _ "extra" eq_refl), <- app_assoc.
  reflexivity.
Qed.

Lemma locate_outDMMFile (self : protocol) :
  locate (outDMMFile self)
  = (locate (workingDir self) ++ ["tmp"; "predictions"; "DMM_score_w9.pdb"])%list.
Proof.
  unfold outDMMFile. rewrite locate_abspath. unfold _getTmpPath, PosixPath.join3.
  change "predictions/DMM_score_w9.pdb" with ("predictions" ++ "/" ++ "DMM_score_w9.pdb").
  rewrite join_two; try reflexivity; try discriminate.
  - rewrite (locate_join _ "DMM_score_w9.pdb" eq_refl),
      (locate_join _ "predictions" eq_refl), (locate_join _ "tmp" eq_refl),
      <- !app_assoc.
    reflexivity.
  - apply join_not_empty. discriminate.
  - rewrite endswith_sep_join; [reflexivity | discriminate | reflexivity].
Qed.

Lemma parseDMMScores_reads (pdbFile : string) (w w' : world) :
  w_fs w (locate pdbFile) = w_fs w' (locate pdbFile) ->
  fst (parseDMMScores pdbFile w) = fst (parseDMMScores pdbFile w').
Proof.
  intros Hsame. unfold parseDMMScores, bind, get_fs, lift, FS.read_file. cbn [w_fs fst snd].
  rewrite Hsame. destruct (w_fs w' (locate pdbFile)) as [[c|]|]; reflexivity.
Qed.

Lemma getDMMArgs_output_dir (self : protocol) (w w1 : world) (args : string) :
  getDMMArgs self w = (Ok args, w1) ->
  exists pre,
    args = pre ++ " -o " ++ abspath (_getTmpPath self "predictions") ++ " -t 10 -T 10".
Proof.
  unfold getDMMArgs, bind.
  destruct (getLocalSequenceFile self w) as [[seq|e] w']; [|discriminate].
  unfold ret. intros [= <- _].
  exists (" -m " ++ abspath (getLocalVolumeFile self) ++ " -f " ++ abspath seq
          ++ " -A " ++ match af2Structure self with Some f => abspath f | None => "" end
          ++ " -c " ++ str_float (contourLevel self)).
  rewrite !append_assoc. reflexivity.
Qed.

Lemma getVolumeName_eq (self : protocol) :
  getVolumeName self
  = PosixPath.basename (PosixPath.splitext_root (getVolumeFile self))
    ++ "_" ++ str_nat (getObjId self).
Proof.
  set (o := PosixPath.basename (PosixPath.splitext_root (getVolumeFile self))).
  set (x := o ++ "_" ++ str_nat (getObjId self)).
  assert (Ho : PosixPath.no_sep o = true) by apply basename_no_sep.
  assert (Hx : PosixPath.proper x = true) by (apply numbered_name_proper; exact Ho).
  assert (Hxs : PosixPath.no_sep x = true) by (apply proper_no_sep; exact Hx).
  unfold getVolumeName, getLocalVolumeFile, _getExtraPath, PosixPath.join3.
  fold o.
  replace (o ++ "_" ++ str_nat (getObjId self) ++ ".mrc") with (x ++ ".mrc")
    by (unfold x; rewrite !append_assoc; reflexivity).
  rewrite join_proper.
  - rewrite splitext_root_app_sep
      by (rewrite no_sep_app, Hxs; reflexivity).
    unfold PosixPath.splitext_name. rewrite rsplit_dot_ext.
    unfold x at 1. rewrite all_dots_underscore. cbn [fst].
    apply basename_app_sep. exact Hxs.
  - apply join_not_empty. discriminate.
  - rewrite endswith_sep_join; [reflexivity | discriminate | reflexivity].
  - pose proof (isabs_app x ".mrc" (proper_not_empty x Hx)) as Hi.
    unfold PosixPath.isabs in Hi. rewrite Hi. apply proper_relative. exact Hx.
Qed.

Lemma getVolumeName_proper (self : protocol) :
  PosixPath.proper (getVolumeName self) = true.
Proof.
  rewrite getVolumeName_eq. apply numbered_name_proper. apply basename_no_sep.
Qed.

(** The predictor's output directory lies in the installation directory,
    under [Predict_Result], and bears the volume's name. *)
Lemma locate_DMMDir (self : protocol) :
  locate (DMMDir self)
  = (locate Plugin_DMMBinary ++ ["Predict_Result"; getVolumeName self])%list.
Proof.
  unfold DMMDir, PosixPath.join3.
  rewrite (locate_join _ _ (getVolumeName_proper self)),
    (locate_join _ "Predict_Result" eq_refl), <- app_assoc.
  reflexivity.
Qed.

(** C4: after a successful [DMMStep] of a run whose extra [predictions]
    path and the installation directory lie apart, the predictor's output
    directory [<install>/Predict_Result/<volume name>] is gone with all it
    held, the run's extra [predictions] path holds what that directory held
    when the subprocess ended, and every other location of the installation
    directory is as the subprocess left it. *)
Theorem DMMStep_relocates_predictor_output (self : protocol) (w w2 : world) :
  let install := locate Plugin_DMMBinary in
  let src := (install ++ ["Predict_Result"; getVolumeName self])%list in
  let dst := locate (_getExtraPath self "predictions") in
  DMMStep self w = (Ok tt, w2) ->
  FS.under install dst = false -> FS.under dst install = false ->
  exists w1,
    DMMStep_run self w = (Ok tt, w1)
    /\ locate (DMMDir self) = src
    /\ w_fs w1 src = Some FS.Dir
    /\ (forall r, w_fs w2 (src ++ r)%list = None)
    /\ (forall r, w_fs w2 (dst ++ r)%list = w_fs w1 (src ++ r)%list)
    /\ (forall q, FS.under install q = true -> FS.under src q = false ->
                  w_fs w2 q = w_fs w1 q).
Proof.
  intros install src dst Hstep Hid Hdi.
  assert (Hloc : locate (DMMDir self) = src) by apply locate_DMMDir.
  assert (His : FS.under install src = true) by apply under_app.
  assert (Hsd : FS.under src dst = false).
  { destruct (FS.under src dst) eqn:Hu; [|reflexivity].
    rewrite (under_trans install src dst His Hu) in Hid. discriminate. }
  assert (Hds : FS.under dst src = false).
  { destruct (FS.under dst src) eqn:Hu; [|reflexivity].
    destruct (under_common install dst src His Hu); congruence. }
  unfold DMMStep in Hstep. apply bind_ok_inv in Hstep as ([] & w1 & Hrun & Hrel).
  exists w1. split; [exact Hrun|]. split; [exact Hloc|].
  apply relocate_ok_inv in Hrel as (fsc & Hcopy & fsr & Hrm & ->).
  rewrite Hloc in Hcopy, Hrm. fold dst in Hcopy.
  destruct (copy_then_remove _ _ _ _ _ _ _ Hcopy Hrm Hsd Hds)
    as (Hsrc & Hgone & Hmoved & Hframe).
  cbn [w_fs]. split; [exact Hsrc|]. split; [exact Hgone|]. split; [exact Hmoved|].
  intros q Hq Hnq. apply (Hframe install q Hid Hdi Hq Hnq).
Qed.

Lemma DMMStep_run_log (self : protocol) (w w1 : world) :
  DMMStep_run self w = (Ok tt, w1) ->
  exists args w0,
    getDMMArgs self w = (Ok args, w0)
    /\ List.last (w_log w1) (Stdout "")
       = RunJob DMMStep_program (DMMStep_args args) Plugin_DMMBinary.
Proof.
  intros Hrun. unfold DMMStep_run in Hrun.
  apply bind_ok_inv in Hrun as (args & w0 & Hargs & Hrest).
  exists args, w0. split; [exact Hargs|].
  unfold bind, print, runJob in Hrest. cbn [w_fs w_log] in Hrest.
  destruct (exit_code _ _ _ =? 0)%Z; [|discriminate].
  injection Hrest as <-. cbn [w_log]. apply last_last.
Qed.

Lemma DMMStep_args_output_dir (args pre tail : string) :
  args = pre ++ tail -> exists pre', DMMStep_args args = pre' ++ tail.
Proof.
  intros ->. unfold DMMStep_args. destruct (negb _).
  - exists ("-p " ++ Plugin_DMMBinary ++ pre). rewrite !append_assoc. reflexivity.
  - exists pre. reflexivity.
Qed.

(** C5: [DMMStep] launches the predictor with the run's [tmp/predictions]
    behind [-o] and puts the copy of the predictor's own output directory
    into the run's [extra/predictions].  [createOutputStep] opens the
    file [DMM_score_w9.pdb] of the [-o] directory, which lies outside
    [extra/predictions]: when it is not there the step raises
    [FileNotFoundError] for it, when it is there its lines are parsed,
    and whatever [extra/predictions] holds, the step ends the same way.
    It is the only step that [_insertAllSteps] puts after [DMMStep]. *)
Theorem score_file_read_from_tmp_predictions (self : protocol) :
  let out_arg := abspath (_getTmpPath self "predictions") in
  let relocated := locate (_getExtraPath self "predictions") in
  let score := (locate out_arg ++ ["DMM_score_w9.pdb"])%list in
  locate out_arg = (locate (workingDir self) ++ ["tmp"; "predictions"])%list
  /\ relocated = (locate (workingDir self) ++ ["extra"; "predictions"])%list
  /\ FS.under relocated score = false
  /\ (forall w w2,
        DMMStep self w = (Ok tt, w2) ->
        exists w1,
          DMMStep_run self w = (Ok tt, w1)
          /\ (exists program pre,
                List.last (w_log w2) (Stdout "")
                = RunJob program (pre ++ " -o " ++ out_arg ++ " -t 10 -T 10")
                         Plugin_DMMBinary)
          /\ (FS.under (locate (DMMDir self)) relocated = false ->
              FS.under relocated (locate (DMMDir self)) = false ->
              forall r, w_fs w2 (relocated ++ r)%list
                        = w_fs w1 (locate (DMMDir self) ++ r)%list))
  /\ (forall w,
        snd (createOutputStep self w) = w
        /\ (w_fs w score = None ->
            fst (createOutputStep self w) = Raise (FileNotFoundError (outDMMFile self)))
        /\ (forall content,
              w_fs w score = Some (FS.File content) ->
              fst (createOutputStep self w)
              = match parseDMMScores_lines (readlines content) with
                | Ok _ => Raise (AttributeError "inputAtomStruct")
                | Raise e => Raise e
                end))
  /\ (forall w w',
        (forall q, FS.under relocated q = false -> w_fs w q = w_fs w' q) ->
        fst (createOutputStep self w) = fst (createOutputStep self w'))
  /\ steps_after "DMMStep" _insertAllSteps = ["createOutputStep"].
Proof.
  intros out_arg relocated score.
  assert (Hout : locate out_arg = (locate (workingDir self) ++ ["tmp"; "predictions"])%list).
  { unfold out_arg. rewrite locate_abspath. apply locate_tmp. reflexivity. }
  assert (Hrel : relocated = (locate (workingDir self) ++ ["extra"; "predictions"])%list).
  { apply locate_extra. reflexivity. }
  assert (Hscore : locate (outDMMFile self) = score).
  { unfold score. rewrite Hout, locate_outDMMFile, <- app_assoc. reflexivity. }
  assert (Hfile : FS.under relocated score = false).
  { rewrite <- Hscore, Hrel, locate_outDMMFile, under_app_same. reflexivity. }
  split; [exact Hout|]. split; [exact Hrel|]. split; [exact Hfile|].
  split; [|split; [|split; [|reflexivity]]].
  - intros w w2 Hstep. unfold DMMStep in Hstep.
    apply bind_ok_inv in Hstep as ([] & w1 & Hrun & Hmove).
    exists w1. split; [exact Hrun|].
    apply relocate_ok_inv in Hmove as (fsc & Hcopy & fsr & Hrm & ->). cbn [w_log w_fs].
    split.
    + destruct (DMMStep_run_log self w w1 Hrun) as (args & w0 & Hargs & Hlast).
      destruct (getDMMArgs_output_dir self w w0 args Hargs) as [pre Hpre].
      destruct (DMMStep_args_output_dir args pre _ Hpre) as [pre' Hpre'].
      exists DMMStep_program, pre'. rewrite Hlast, Hpre'. reflexivity.
    + intros Hsd Hds r.
      destruct (copy_then_remove _ _ _ _ _ _ _ Hcopy Hrm Hsd Hds) as (_ & _ & Hmoved & _).
      apply Hmoved.
  - intros w. rewrite createOutputStep_outcome. cbn [fst snd].
    split; [reflexivity|].
    unfold parseDMMScores, bind, get_fs, lift, FS.read_file. cbn [w_fs fst].
    rewrite Hscore. split.
    + intros ->. reflexivity.
    + intros content ->. cbn [fst]. reflexivity.
  - intros w w' Hsame. rewrite !createOutputStep_outcome. cbn [fst].
    rewrite (parseDMMScores_reads (outDMMFile self) w w'); [reflexivity|].
    rewrite Hscore. apply Hsame. exact Hfile.
Qed.

End Paths.

Lemma score_file_read_from_tmp_predictions_witness :
  w_fs Scenario.without_tmp_scores
       (Demo.run_dir ++ ["extra"; "predictions"; "DMM_score_w9.pdb"])%list
  = Some (FS.File Demo.score_file)
  /\ fst (@createOutputStep Demo.host Demo.self Scenario.without_tmp_scores)
     = Raise (FileNotFoundError
                "/home/user/project/Runs/000007_ProtDMMValidation/tmp/predictions/DMM_score_w9.pdb")
  /\ fst (@createOutputStep Demo.host Demo.self Scenario.after_DMMStep)
     = Raise (AttributeError "inputAtomStruct")
  /\ exists program pre,
       List.last (w_log Scenario.after_DMMStep) (Stdout "")
       = RunJob program
           (pre ++ " -o /home/user/project/Runs/000007_ProtDMMValidation/tmp/predictions"
                ++ " -t 10 -T 10")
           "/opt/DMM".
Proof.
  destruct (@score_file_read_from_tmp_predictions Demo.host Demo.self)
    as (_ & _ & _ & Hstep & Hread & _).
  split; [vm_compute; reflexivity|]. split; [|split].
  - destruct (Hread Scenario.without_tmp_scores) as (_ & Hmissing & _).
    rewrite (Hmissing eq_refl). reflexivity.
  - destruct (Hread Scenario.after_DMMStep) as (_ & _ & Hparsed).
    rewrite (Hparsed Demo.score_file eq_refl). reflexivity.
  - assert (Hrun : @DMMStep Demo.host Demo.self Demo.w0 = (Ok tt, Scenario.after_DMMStep))
      by (vm_compute; reflexivity).
    destruct (Hstep Demo.w0 Scenario.after_DMMStep Hrun)
      as (w1 & _ & (program & pre & Hlast) & _).
    exists program, pre. exact Hlast.
Defined.

(** ** Evaluation on a concrete run *)

Lemma DMMStep_relocates_predictor_output_witness :
  exists w2,
    @DMMStep Demo.host Demo.self Demo.w0 = (Ok tt, w2)
    /\ w_fs w2 ["opt"; "DMM"; "Predict_Result"; "vol1_7"] = None
    /\ w_fs w2 ["opt"; "DMM"; "Predict_Result"; "vol1_7"; "DMM_score_w9.pdb"] = None
    /\ w_fs w2 (Demo.run_dir ++ ["extra"; "predictions"; "DMM_score_w9.pdb"])%list
       = Some (FS.File Demo.score_file)
    /\ w_fs w2 ["opt"; "DMM"; "dmm_full_multithreads.sh"] = Some (FS.File "#!/bin/bash").
Proof.
  set (w2 := snd (@DMMStep Demo.host Demo.self Demo.w0)).
  assert (Hstep : @DMMStep Demo.host Demo.self Demo.w0 = (Ok tt, w2))
    by (vm_compute; reflexivity).
  destruct (@DMMStep_relocates_predictor_output Demo.host Demo.self Demo.w0 w2
              Hstep eq_refl eq_refl)
    as (w1 & Hrun & _ & Hsrc & Hgone & Hmoved & Hframe).
  assert (Hw1 : w1 = snd (@DMMStep_run Demo.host Demo.self Demo.w0))
    by (rewrite Hrun; reflexivity).
  exists w2. split; [exact Hstep|]. split; [exact (Hgone [])|].
  split; [exact (Hgone ["DMM_score_w9.pdb"])|]. split.
  - change (w_fs w2 (@locate Demo.host (_getExtraPath Demo.self "predictions")
                       ++ ["DMM_score_w9.pdb"])%list = Some (FS.File Demo.score_file)).
    rewrite Hmoved, Hw1. vm_compute. reflexivity.
  - rewrite (Hframe ["opt"; "DMM"; "dmm_full_multithreads.sh"] eq_refl eq_refl), Hw1.
    vm_compute. reflexivity.
Defined.

(** C4 fails as stated.  The predictor works inside the installation
    directory and [DMMStep] removes only the directory it has copied: in
    the run of the scenario [Predict_Result], absent before the step, is
    there after it.  And for a run that lies inside the installation
    directory the relocated copy is itself new content of it. *)
Lemma DMMStep_installation_counterexample :
  (fst (@DMMStep Demo.host Demo.self Demo.w0) = Ok tt
   /\ w_fs Demo.w0 ["opt"; "DMM"; "Predict_Result"] = None
   /\ w_fs Scenario.after_DMMStep ["opt"; "DMM"; "Predict_Result"] = Some FS.Dir)
  /\ (fst (@DMMStep Demo.host Scenario.nested_self Scenario.nested_w0) = Ok tt
      /\ FS.under (@locate Demo.host "/opt/DMM")
                  (Scenario.nested_dir ++ ["extra"; "predictions"])%list = true
      /\ w_fs (snd (@DMMStep_run Demo.host Scenario.nested_self Scenario.nested_w0))
              (Scenario.nested_dir ++ ["extra"; "predictions"])%list = None
      /\ w_fs (snd (@DMMStep Demo.host Scenario.nested_self Scenario.nested_w0))
              (Scenario.nested_dir ++ ["extra"; "predictions"])%list = Some FS.Dir).
Proof. vm_compute. repeat split. Qed.

Lemma DMMStep_missing_output_raises_witness :
  fst (@DMMStep Demo.idle_host Demo.idle_self Demo.idle_w0)
  = Raise (FileNotFoundError "/opt/DMM/Predict_Result/vol1_7").
Proof.
  set (w1 := snd (@DMMStep_run Demo.idle_host Demo.idle_self Demo.idle_w0)).
  assert (Hrun : @DMMStep_run Demo.idle_host Demo.idle_self Demo.idle_w0 = (Ok tt, w1))
    by (vm_compute; reflexivity).
  destruct (@DMMStep_missing_output_raises Demo.idle_host Demo.idle_self Demo.idle_w0 w1
              Hrun eq_refl) as (Hraise & _).
  rewrite Hraise. reflexivity.
Defined.

(** * Further properties of the code *)

(** ** The score-file parser, continued *)

Lemma readable_line_step (d : gmap string string) (line : string) :
  readable_line line = true -> exists d1, parse_line d line = Ok d1.
Proof.
  unfold readable_line. destruct (is_record line) eqn:Hr; cbn [negb orb].
  - intros Hl. apply Nat.ltb_lt in Hl. destruct (resId_of_long line Hl) as [k Hk].
    rewrite (parse_line_record d line k Hr Hk). eauto.
  - intros _. rewrite (parse_line_skip d line Hr). eauto.
Qed.

Lemma unreadable_line_step (d : gmap string string) (line : string) :
  readable_line line = false -> parse_line d line = Raise IndexError.
Proof.
  unfold readable_line. destruct (is_record line) eqn:Hr; cbn [negb orb]; [|discriminate].
  intros Hl. apply Nat.ltb_ge in Hl. apply parse_line_raises_iff. auto with arith.
Qed.

Lemma parse_lines_unreadable (lines : list string) (d : gmap string string) :
  forallb readable_line lines = false -> parse_lines d lines = Raise IndexError.
Proof.
  revert d; induction lines as [|l lines IH]; intros d; cbn [forallb parse_lines];
    [discriminate|].
  destruct (readable_line l) eqn:Hl; cbn [andb].
  - intros Hrest. destruct (readable_line_step d l Hl) as [d1 ->]. apply IH. exact Hrest.
  - intros _. rewrite (unreadable_line_step d l Hl). reflexivity.
Qed.

Lemma parse_lines_fail_iff_short (file : list string) :
  (parseDMMScores_lines file = Raise IndexError
   <-> exists line, In line file /\ is_record line = true /\ String.length line <= 21)
  /\ (forall e, parseDMMScores_lines file = Raise e -> e = IndexError)
  /\ ((exists d, parseDMMScores_lines file = Ok d)
      <-> forall line, In line file -> is_record line = true -> 21 < String.length line).
Proof.
  unfold parseDMMScores_lines.
  assert (Hshort : forallb readable_line file = false
                   <-> exists line, In line file /\ is_record line = true
                                    /\ String.length line <= 21).
  { split.
    - intros Hf. induction file as [|l file IH]; [discriminate|].
      cbn [forallb] in Hf. destruct (readable_line l) eqn:Hl; cbn [andb] in Hf.
      + destruct (IH Hf) as (line & Hin & Hrec). exists line. split; [right|]; assumption.
      + exists l. split; [left; reflexivity|]. unfold readable_line in Hl.
        destruct (is_record l); [|discriminate]. cbn [negb orb] in Hl.
        apply Nat.ltb_ge in Hl. auto with arith.
    - intros (line & Hin & Hr & Hlen).
      destruct (forallb readable_line file) eqn:Hf; [|reflexivity].
      rewrite forallb_forall in Hf. specialize (Hf line Hin).
      unfold readable_line in Hf. rewrite Hr in Hf. cbn [negb orb] in Hf.
      apply Nat.ltb_lt in Hf. lia. }
  destruct (forallb readable_line file) eqn:Hf.
  - destruct (parse_lines_readable file ∅ Hf) as [d Hd]. rewrite Hd.
    split; [|split].
    + split; [discriminate|]. intros Hex. apply Hshort in Hex. discriminate.
    + intros e He. discriminate.
    + split; [|eauto]. intros _ line Hin Hr.
      rewrite forallb_forall in Hf. specialize (Hf line Hin).
      unfold readable_line in Hf. rewrite Hr in Hf. cbn [negb orb] in Hf.
      apply Nat.ltb_lt in Hf. exact Hf.
  - rewrite (parse_lines_unreadable file ∅ Hf). split; [|split].
    + split; [intros _; apply Hshort; reflexivity | reflexivity].
    + intros e [= <-]. reflexivity.
    + split; [intros [d Hd]; discriminate|]. intros Hall.
      destruct Hshort as [Hs _]. destruct (Hs eq_refl) as (line & Hin & Hr & Hlen).
      specialize (Hall line Hin Hr). lia.
Qed.

(** X1: [parseDMMScores] never changes the world.  A path with nothing
    behind it makes it raise [FileNotFoundError], a directory
    [IsADirectoryError]; on a file that opens, it fails exactly when some
    line begins with [ATOM] or [HETATM] and has fewer than 22 characters,
    the exception is then [IndexError] whatever the lines before it held,
    and otherwise a dictionary is returned. *)
Theorem parseDMMScores_fails_iff_short_record `{Host} (pdbFile : string) (w : world) :
  snd (parseDMMScores pdbFile w) = w
  /\ (w_fs w (locate pdbFile) = None ->
      fst (parseDMMScores pdbFile w) = Raise (FileNotFoundError pdbFile))
  /\ (w_fs w (locate pdbFile) = Some FS.Dir ->
      fst (parseDMMScores pdbFile w) = Raise (IsADirectoryError pdbFile))
  /\ (forall content,
        w_fs w (locate pdbFile) = Some (FS.File content) ->
        (fst (parseDMMScores pdbFile w) = Raise IndexError
         <-> exists line, In line (readlines content) /\ is_record line = true
                          /\ String.length line <= 21)
        /\ (forall e, fst (parseDMMScores pdbFile w) = Raise e -> e = IndexError)
        /\ ((exists d, fst (parseDMMScores pdbFile w) = Ok d)
            <-> forall line, In line (readlines content) -> is_record line = true ->
                             21 < String.length line)).
Proof.
  split; [|split; [|split]].
  - unfold parseDMMScores, bind, get_fs, lift. cbn [w_fs].
    destruct (FS.read_file _ _ _); reflexivity.
  - intros Hnone. unfold parseDMMScores, bind, get_fs, lift, FS.read_file. cbn [w_fs].
    rewrite Hnone. reflexivity.
  - intros Hdir. unfold parseDMMScores, bind, get_fs, lift, FS.read_file. cbn [w_fs].
    rewrite Hdir. reflexivity.
  - intros content Hfile.
    assert (Hp : fst (parseDMMScores pdbFile w) = parseDMMScores_lines (readlines content)).
    { unfold parseDMMScores, bind, get_fs, lift, FS.read_file. cbn [w_fs].
      rewrite Hfile. reflexivity. }
    rewrite Hp. apply parse_lines_fail_iff_short.
Qed.

Lemma parseDMMScores_fails_iff_short_record_witness :
  fst (@parseDMMScores Demo.host (@outDMMFile Demo.host Demo.self) Demo.w0)
  = Raise (FileNotFoundError (@outDMMFile Demo.host Demo.self))
  /\ exists d,
       fst (@parseDMMScores Demo.host (@outDMMFile Demo.host Demo.self) Scenario.after_DMMStep)
       = Ok d.
Proof.
  split.
  - destruct (@parseDMMScores_fails_iff_short_record Demo.host
                (@outDMMFile Demo.host Demo.self) Demo.w0) as (_ & Hnone & _).
    apply Hnone. reflexivity.
  - destruct (@parseDMMScores_fails_iff_short_record Demo.host
                (@outDMMFile Demo.host Demo.self) Scenario.after_DMMStep)
      as (_ & _ & _ & Hfile).
    assert (Hthere : w_fs Scenario.after_DMMStep
                       (@locate Demo.host (@outDMMFile Demo.host Demo.self))
                     = Some (FS.File Demo.score_file))
      by (vm_compute; reflexivity).
    destruct (Hfile Demo.score_file Hthere) as (_ & _ & Hok).
    apply Hok. intros line Hin Hrec. vm_compute in Hin.
    repeat (destruct Hin as [<- | Hin]; [try discriminate; vm_compute; lia|]).
    destruct Hin.
Defined.

Lemma parse_lines_dom (lines : list string) (d d' : gmap string string) (k : string) :
  parse_lines d lines = Ok d' ->
  (is_Some (d' !! k)
   <-> is_Some (d !! k)
       \/ exists line, In line lines /\ is_record line = true /\ resId_of line = Ok k).
Proof.
  revert d; induction lines as [|l lines IH]; intros d; cbn [parse_lines].
  - intros [= <-]. split; [auto|]. intros [Hd | (line & [] & _)]. exact Hd.
  - destruct (parse_line d l) as [d1|] eqn:Hl; [|discriminate]. intros Hrest.
    rewrite (IH d1 Hrest). clear IH Hrest.
    unfold parse_line in Hl. destruct (is_record l) eqn:Hr.
    + destruct (resId_of l) as [r|] eqn:Hk; [|discriminate].
      assert (Hd1 : is_Some (d1 !! k) <-> is_Some (d !! k) \/ r = k).
      { destruct (d !! r) eqn:Hdr; injection Hl as <-.
        - split; [auto|]. intros [Hd | <-]; [exact Hd | rewrite Hdr; eauto].
        - rewrite lookup_insert. destruct (decide (r = k)) as [->|Hne].
          + split; [auto | eauto].
          + split; [auto|]. intros [Hd | Heq]; [exact Hd | contradiction]. }
      rewrite Hd1. split.
      * intros [[Hd | <-] | (line & Hin & Hrec)]; [auto | |].
        -- right. exists l. split; [left; reflexivity | auto].
        -- right. exists line. split; [right; exact Hin | exact Hrec].
      * intros [Hd | (line & [<- | Hin] & Hrl & Hkl)]; [auto | |].
        -- left. right. congruence.
        -- right. exists line. auto.
    + injection Hl as <-. split.
      * intros [Hd | (line & Hin & Hrec)]; [auto|].
        right. exists line. split; [right; exact Hin | exact Hrec].
      * intros [Hd | (line & [<- | Hin] & Hrl & Hkl)]; [auto | congruence |].
        right. exists line. auto.
Qed.

(** X2: the dictionary a successful parse returns has an entry for a key
    exactly when some [ATOM] or [HETATM] line of the file has that key; a
    residue without such a line is absent from it. *)
Theorem parseDMMScores_keys (file : list string) (d : gmap string string) :
  parseDMMScores_lines file = Ok d ->
  forall k,
    is_Some (d !! k)
    <-> exists line, In line file /\ is_record line = true /\ resId_of line = Ok k.
Proof.
  intros Hd k. rewrite (parse_lines_dom file ∅ d k Hd). split.
  - intros [Hempty | Hex]; [|exact Hex].
    rewrite lookup_empty in Hempty. destruct Hempty as [? Hx]. discriminate.
  - auto.
Qed.

Lemma parseDMMScores_keys_witness :
  exists d,
    parseDMMScores_lines (readlines Demo.score_file) = Ok d
    /\ is_Some (d !! "A:11") /\ d !! "B:10" = None.
Proof.
  destruct (parseDMMScores_lines (readlines Demo.score_file)) as [d|e] eqn:Hd;
    [|vm_compute in Hd; discriminate].
  pose proof (parseDMMScores_keys (readlines Demo.score_file) d Hd) as Hkeys.
  exists d. split; [reflexivity|]. split.
  - apply Hkeys. exists (List.nth 3 (readlines Demo.score_file) "").
    split; [vm_compute; tauto | split; reflexivity].
  - destruct (d !! "B:10") eqn:Hb; [|reflexivity].
    exfalso. destruct (proj1 (Hkeys "B:10") (ex_intro _ s Hb)) as (line & Hin & Hr & Hk).
    vm_compute in Hin.
    repeat (destruct Hin as [<- | Hin]; [vm_compute in Hk; discriminate|]).
    exact Hin.
Defined.

Lemma parse_lines_bound (lines : list string) (d : gmap string string) :
  (forall line, In line lines -> is_record line = true ->
     exists k, resId_of line = Ok k /\ is_Some (d !! k)) ->
  parse_lines d lines = Ok d.
Proof.
  induction lines as [|l lines IH]; intros Hall; cbn [parse_lines]; [reflexivity|].
  assert (Hl : parse_line d l = Ok d).
  { destruct (is_record l) eqn:Hr; [|apply parse_line_skip; exact Hr].
    destruct (Hall l (or_introl eq_refl) Hr) as (k & Hk & [v Hv]).
    rewrite (parse_line_record d l k Hr Hk), Hv. reflexivity. }
  rewrite Hl. apply IH. intros line Hin. apply Hall. right. exact Hin.
Qed.

Lemma parse_lines_ok_records (lines : list string) (d d' : gmap string string) :
  parse_lines d lines = Ok d' ->
  forall line, In line lines -> is_record line = true -> exists k, resId_of line = Ok k.
Proof.
  revert d; induction lines as [|l lines IH]; intros d; cbn [parse_lines];
    [intros _ line []|].
  destruct (parse_line d l) as [d1|] eqn:Hl; [|discriminate].
  intros Hrest line [<- | Hin] Hr; [|eapply IH; eassumption].
  unfold parse_line in Hl. rewrite Hr in Hl.
  destruct (resId_of l) as [k|]; [eauto | discriminate].
Qed.

(** X3: later duplicates are discarded: reading the same lines once more
    into the dictionary they produced changes nothing, so a file followed
    by a copy of itself parses to what the file alone parses to. *)
Theorem parseDMMScores_repeated_lines (file : list string) :
  (forall d d', parse_lines d file = Ok d' -> parse_lines d' file = Ok d')
  /\ parseDMMScores_lines (file ++ file) = parseDMMScores_lines file.
Proof.
  assert (Hagain : forall d d', parse_lines d file = Ok d' -> parse_lines d' file = Ok d').
  { intros d d' Hd. apply parse_lines_bound. intros line Hin Hr.
    destruct (parse_lines_ok_records file d d' Hd line Hin Hr) as [k Hk].
    exists k. split; [exact Hk|].
    apply (parse_lines_dom file d d' k Hd). right. exists line. auto. }
  split; [exact Hagain|].
  unfold parseDMMScores_lines. rewrite parse_lines_app.
  destruct (parse_lines ∅ file) as [d|e] eqn:Hd; [|reflexivity].
  apply (Hagain ∅ d Hd).
Qed.

Lemma parseDMMScores_repeated_lines_witness :
  parseDMMScores_lines (readlines Demo.score_file ++ readlines Demo.score_file)
  = parseDMMScores_lines (readlines Demo.score_file).
Proof.
  destruct (parseDMMScores_repeated_lines (readlines Demo.score_file)) as (_ & Htwice).
  exact Htwice.
Defined.

(** ** Trimming *)

Lemma lstrip_length (s : string) : String.length (lstrip s) <= String.length s.
Proof.
  induction s as [|c s IH]; cbn [lstrip String.length]; [lia|].
  destruct (is_space c); cbn [String.length]; lia.
Qed.

Lemma rstrip_length (s : string) : String.length (rstrip s) <= String.length s.
Proof.
  induction s as [|c s IH]; cbn [rstrip String.length]; [lia|].
  destruct (rstrip s) as [|c' r]; [destruct (is_space c)|]; cbn [String.length] in *; lia.
Qed.

Lemma strip_length (s : string) : String.length (strip s) <= String.length s.
Proof.
  unfold strip. pose proof (rstrip_length (lstrip s)). pose proof (lstrip_length s). lia.
Qed.

Lemma rstrip_idem (s : string) : rstrip (rstrip s) = rstrip s.
Proof.
  induction s as [|c s IH]; [reflexivity|]. cbn [rstrip].
  destruct (rstrip s) as [|c' r] eqn:Hr.
  - destruct (is_space c) eqn:Hc; [reflexivity|]. cbn [rstrip]. rewrite Hc. reflexivity.
  - change (rstrip (String c (String c' r)))
      with (match rstrip (String c' r) with
            | EmptyString => if is_space c then EmptyString else String c EmptyString
            | String a b => String c (String a b)
            end).
    rewrite IH. reflexivity.
Qed.

(** The first character of a string that does not start with a space
    survives [rstrip]. *)
Lemma rstrip_head (c : string) :
  lstrip c = c -> lstrip (rstrip c) = rstrip c.
Proof.
  destruct c as [|x c]; [reflexivity|]. cbn [lstrip].
  destruct (is_space x) eqn:Hx.
  - intros Heq. exfalso. pose proof (lstrip_length c) as Hl. rewrite Heq in Hl.
    cbn [String.length] in Hl. lia.
  - intros _. cbn [rstrip]. destruct (rstrip c); rewrite ?Hx; cbn [lstrip]; rewrite Hx;
      reflexivity.
Qed.

Lemma lstrip_idem (s : string) : lstrip (lstrip s) = lstrip s.
Proof.
  induction s as [|c s IH]; [reflexivity|]. cbn [lstrip].
  destruct (is_space c) eqn:Hc; [exact IH|]. cbn [lstrip]. rewrite Hc. reflexivity.
Qed.

Lemma strip_idem (s : string) : strip (strip s) = strip s.
Proof.
  unfold strip. rewrite (rstrip_head (lstrip s) (lstrip_idem s)). apply rstrip_idem.
Qed.

Lemma substring_length (n m : nat) (s : string) :
  String.length (String.substring n m s) <= m.
Proof.
  revert n m; induction s as [|c s IH]; intros n m.
  - destruct n, m; cbn; lia.
  - destruct n as [|n]; [destruct m as [|m]|]; cbn [String.substring String.length].
    + lia.
    + specialize (IH 0 m). lia.
    + apply IH.
Qed.

Lemma slice_length (s : string) (i j : nat) : String.length (slice s i j) <= j - i.
Proof. apply substring_length. Qed.

(** A key [chain:number] and a score as the parser forms them. *)
Lemma resId_of_shape (line k : string) :
  resId_of line = Ok k ->
  exists chain number,
    k = chain ++ ":" ++ number
    /\ strip chain = chain /\ strip number = number
    /\ String.length chain <= 1 /\ String.length number <= 4.
Proof.
  unfold resId_of. destruct (index line 21) as [c|]; [|discriminate].
  intros [= <-]. exists (strip (String c "")), (strip (slice line 22 26)).
  split; [reflexivity|]. rewrite !strip_idem. split; [reflexivity|]. split; [reflexivity|].
  split.
  - apply (strip_length (String c "")).
  - pose proof (strip_length (slice line 22 26)). pose proof (slice_length line 22 26). lia.
Qed.

Lemma score_of_shape (line : string) :
  strip (score_of line) = score_of line /\ String.length (score_of line) <= 6.
Proof.
  unfold score_of. rewrite strip_idem. split; [reflexivity|].
  pose proof (strip_length (slice line 60 66)). pose proof (slice_length line 60 66). lia.
Qed.

(** X4: every entry of a parsed dictionary is trimmed and bounded: the key
    is [chain:number] with a chain of at most one character and a number
    of at most four, the score has at most six characters, and none of the
    three starts or ends with white space. *)
Theorem parseDMMScores_entries_trimmed (file : list string) (d : gmap string string) :
  parseDMMScores_lines file = Ok d ->
  forall k v, d !! k = Some v ->
    (exists chain number,
       k = chain ++ ":" ++ number
       /\ strip chain = chain /\ strip number = number
       /\ String.length chain <= 1 /\ String.length number <= 4)
    /\ strip v = v /\ String.length v <= 6.
Proof.
  unfold parseDMMScores_lines.
  assert (Hinv : forall lines d0 d1,
            parse_lines d0 lines = Ok d1 ->
            forall k v, d1 !! k = Some v ->
              d0 !! k = Some v
              \/ exists line, resId_of line = Ok k /\ v = score_of line).
  { induction lines as [|l lines IH]; intros d0 d1; cbn [parse_lines].
    - intros [= <-] k v Hk. left. exact Hk.
    - destruct (parse_line d0 l) as [d2|] eqn:Hl; [|discriminate].
      intros Hrest k v Hk. destruct (IH d2 d1 Hrest k v Hk) as [Hd2 | Hex]; [|right; exact Hex].
      unfold parse_line in Hl. destruct (is_record l); [|left; congruence].
      destruct (resId_of l) as [r|] eqn:Hr; [|discriminate].
      destruct (d0 !! r) eqn:Hd0; injection Hl as <-; [left; exact Hd2|].
      rewrite lookup_insert in Hd2. destruct (decide (r = k)) as [->|Hne].
      + right. exists l. split; [exact Hr | congruence].
      + left. exact Hd2. }
  intros Hd k v Hk. destruct (Hinv file ∅ d Hd k v Hk) as [Hempty | (line & Hr & ->)].
  - rewrite lookup_empty in Hempty. discriminate.
  - split; [apply (resId_of_shape line k Hr) | apply score_of_shape].
Qed.

Lemma parseDMMScores_entries_trimmed_witness :
  exists d,
    parseDMMScores_lines (readlines Demo.score_file) = Ok d
    /\ d !! "A:10" = Some "0.50" /\ strip "0.50" = "0.50".
Proof.
  destruct (parseDMMScores_lines (readlines Demo.score_file)) as [d|e] eqn:Hd;
    [|vm_compute in Hd; discriminate].
  assert (Hk : d !! "A:10" = Some "0.50")
    by (vm_compute in Hd; injection Hd as <-; reflexivity).
  destruct (parseDMMScores_entries_trimmed (readlines Demo.score_file) d Hd "A:10" "0.50" Hk)
    as (_ & Hstrip & _).
  exists d. split; [reflexivity|]. split; [exact Hk | exact Hstrip].
Defined.

(** ** The columns the parser looks at *)

Lemma substring_prefix_substring (s : string) (i k m : nat) :
  i + k <= m ->
  String.substring i k (String.substring 0 m s) = String.substring i k s.
Proof.
  revert i k m; induction s as [|c s IH]; intros i k m Hm.
  - destruct m; reflexivity.
  - destruct m as [|m].
    + assert (i = 0) by lia. assert (k = 0) by lia. subst. reflexivity.
    + cbn [String.substring]. destruct i as [|i].
      * destruct k as [|k]; [reflexivity|]. cbn [String.substring].
        rewrite (IH 0 k m) by lia. reflexivity.
      * cbn [String.substring]. apply IH. lia.
Qed.

Lemma get_prefix_substring (s : string) (n m : nat) :
  n < m -> String.get n (String.substring 0 m s) = String.get n s.
Proof.
  revert n m; induction s as [|c s IH]; intros n m Hm.
  - destruct m; reflexivity.
  - destruct m as [|m]; [lia|]. cbn [String.substring]. destruct n as [|n]; [reflexivity|].
    cbn [String.get]. apply IH. lia.
Qed.

Lemma startswith_prefix_substring (s p : string) (m : nat) :
  String.length p <= m -> startswith (String.substring 0 m s) p = startswith s p.
Proof.
  revert s m; induction p as [|a p IH]; intros s m Hm; [reflexivity|].
  cbn [String.length] in Hm. destruct m as [|m]; [lia|].
  destruct s as [|b s]; [reflexivity|]. cbn [String.substring startswith].
  rewrite IH by lia. reflexivity.
Qed.

Lemma parse_line_columns (d : gmap string string) (line : string) :
  parse_line d (slice line 0 66) = parse_line d line.
Proof.
  unfold parse_line, is_record, resId_of, score_of, index, slice.
  change (66 - 0) with 66.
  rewrite !startswith_prefix_substring by (cbn; lia).
  rewrite get_prefix_substring by lia.
  rewrite !substring_prefix_substring by lia.
  reflexivity.
Qed.

(** X5: nothing past column 66 of a line reaches the result: cutting every
    line after its first 66 characters leaves the parse, result or
    exception, as it is. *)
Theorem parseDMMScores_ignores_columns_past_66 (d : gmap string string)
    (lines : list string) :
  parse_lines d (List.map (fun line => slice line 0 66) lines) = parse_lines d lines.
Proof.
  revert d; induction lines as [|l lines IH]; intros d; [reflexivity|].
  cbn [List.map parse_lines]. rewrite parse_line_columns.
  destruct (parse_line d l); [apply IH | reflexivity].
Qed.

(** ** Names derived from the inputs *)

Lemma to_uint_not_nil (n : nat) : Nat.to_uint n <> Decimal.Nil.
Proof.
  intros Hnil. pose proof (DecimalNat.Unsigned.of_to n) as Hn. rewrite Hnil in Hn.
  cbn in Hn. subst n. discriminate.
Qed.

Lemma str_nat_inj (n m : nat) : str_nat n = str_nat m -> n = m.
Proof.
  unfold str_nat. intros Heq. apply (f_equal NilZero.uint_of_string) in Heq.
  rewrite !NilZero.usu in Heq by apply to_uint_not_nil.
  injection Heq as Heq. apply DecimalNat.Unsigned.to_uint_inj. exact Heq.
Qed.

Section NameLemmas.

Import PosixPath.

Lemma numbered_file_proper (o ext : string) (n : nat) :
  no_sep o = true -> no_sep ext = true ->
  proper (o ++ "_" ++ str_nat n ++ ext) = true.
Proof.
  intros Ho Hext. unfold proper.
  rewrite !no_sep_app, Ho, str_nat_no_sep, Hext. cbn [no_sep Ascii.eqb andb negb].
  assert (Hne : forall t, all_dots t = true ->
                  String.eqb (o ++ "_" ++ str_nat n ++ ext) t = false).
  { intros t Ht. apply String.eqb_neq. intros Heq.
    rewrite <- Heq, all_dots_underscore in Ht. discriminate. }
  rewrite (Hne "" eq_refl), (Hne "." eq_refl), (Hne ".." eq_refl). reflexivity.
Qed.

End NameLemmas.

Section Names.

Context `{Host}.

(** X6: the volume's name is the base name of the input volume file,
    without its extension, followed by [_] and the protocol's identifier;
    it holds no separator, and the local volume file is the file of that
    name with extension [.mrc] directly in the run's [extra] directory, so
    that the name is read back from the file's path. *)
Theorem getVolumeName_of_local_volume_file (self : protocol) :
  let base := PosixPath.basename (PosixPath.splitext_root (getVolumeFile self)) in
  getVolumeName self = base ++ "_" ++ str_nat (getObjId self)
  /\ PosixPath.no_sep (getVolumeName self) = true
  /\ getLocalVolumeFile self = _getExtraPath self (getVolumeName self ++ ".mrc")
  /\ locate (getLocalVolumeFile self)
     = (locate (workingDir self) ++ ["extra"; (getVolumeName self ++ ".mrc")%string])%list
  /\ PosixPath.basename (PosixPath.splitext_root (getLocalVolumeFile self))
     = getVolumeName self.
Proof.
  intros base.
  assert (Hname : getVolumeName self = base ++ "_" ++ str_nat (getObjId self))
    by apply getVolumeName_eq.
  assert (Hfile : getLocalVolumeFile self = _getExtraPath self (getVolumeName self ++ ".mrc")).
  { rewrite Hname. unfold getLocalVolumeFile. fold base.
    rewrite !append_assoc. reflexivity. }
  split; [exact Hname|]. split; [apply proper_no_sep, getVolumeName_proper|].
  split; [exact Hfile|]. split; [|reflexivity].
  rewrite Hfile. apply locate_extra. rewrite Hname, !append_assoc.
  apply numbered_file_proper; [apply basename_no_sep | reflexivity].
Qed.

(** X7: the predictor's output directory is
    [<install>/Predict_Result/<base>_<id>] wherever the run directory is:
    two protocols on volumes of the same base name use the same directory
    exactly when they have the same identifier. *)
Theorem DMMDir_shared_iff_same_identifier (self self' : protocol) :
  let base p := PosixPath.basename (PosixPath.splitext_root (getVolumeFile p)) in
  base self = base self' ->
  locate (DMMDir self)
  = (locate Plugin_DMMBinary
       ++ ["Predict_Result"; (base self ++ "_" ++ str_nat (getObjId self))%string])%list
  /\ (getObjId self = getObjId self' <-> locate (DMMDir self) = locate (DMMDir self')).
Proof.
  intros base Hbase.
  assert (Hloc : forall p, locate (DMMDir p)
            = (locate Plugin_DMMBinary
                 ++ ["Predict_Result"; (base p ++ "_" ++ str_nat (getObjId p))%string])%list).
  { intros p. rewrite locate_DMMDir, getVolumeName_eq. reflexivity. }
  split; [apply Hloc|]. rewrite !Hloc, <- Hbase. split.
  - intros ->. reflexivity.
  - intros Heq. apply app_inv_head in Heq. injection Heq as Heq.
    apply append_inv_head in Heq. apply (append_inv_head "_") in Heq.
    apply str_nat_inj. exact Heq.
Qed.

End Names.

Lemma DMMDir_shared_iff_same_identifier_witness :
  @DMMDir Demo.host Demo.self = "/opt/DMM/Predict_Result/vol1_7"
  /\ @DMMDir Demo.host Scenario.other_self = "/opt/DMM/Predict_Result/vol1_31"
  /\ @locate Demo.host (@DMMDir Demo.host Demo.self)
     <> @locate Demo.host (@DMMDir Demo.host Scenario.other_self).
Proof.
  split; [reflexivity|]. split; [reflexivity|].
  destruct (@DMMDir_shared_iff_same_identifier Demo.host Demo.self Scenario.other_self eq_refl)
    as (_ & Hiff).
  intros Heq. apply Hiff in Heq. discriminate.
Defined.

(** ** The steps at their edges *)

Lemma strip_prefix_app_same (d a b : FS.loc) :
  FS.strip_prefix (d ++ a)%list (d ++ b)%list = FS.strip_prefix a b.
Proof.
  induction d as [|x d IH]; [reflexivity|]. simpl. rewrite String.eqb_refl. exact IH.
Qed.

Lemma parent_app_two (l : FS.loc) (a b : string) :
  FS.parent (l ++ [a; b])%list = (l ++ [a])%list.
Proof.
  unfold FS.parent. change [a; b] with ([a] ++ [b])%list.
  rewrite app_assoc. apply removelast_last.
Qed.

Lemma write_file_ok (fs : FS.t) (name : string) (p : FS.loc) (content : string) :
  p <> [] -> fs p <> Some FS.Dir -> fs (FS.parent p) = Some FS.Dir ->
  FS.write_file fs name p content = Ok (FS.write fs p (FS.File content)).
Proof.
  intros Hp Hnd Hpar. unfold FS.write_file.
  destruct (fs p) as [[c|]|] eqn:Hfs; try congruence;
    destruct p as [|a [|b p]]; try congruence; rewrite Hpar; reflexivity.
Qed.

Section Edges.

Context `{Host}.

Lemma locate_extrapath (self : protocol) :
  let base := PosixPath.basename (PosixPath.splitext_root (getSequenceFile self)) in
  locate (getLocalSequenceFile_extrapath self)
  = (locate (workingDir self)
       ++ ["extra"; (base ++ "_" ++ str_nat (getObjId self) ++ ".fasta")%string])%list.
Proof.
  intros base. unfold getLocalSequenceFile_extrapath. fold base.
  apply locate_extra. apply numbered_file_proper; [apply basename_no_sep | reflexivity].
Qed.

(** X8: when the sequence file is a file, the run's [extra] directory
    exists and the target name is free or a file, [getLocalSequenceFile]
    returns the path [extra/<base>_<id>.fasta] of the run and leaves there
    a file with the content of the sequence file; no other location of the
    file system changes. *)
Theorem getLocalSequenceFile_copies_verbatim (self : protocol) (w : world)
    (content : string) :
  let base := PosixPath.basename (PosixPath.splitext_root (getSequenceFile self)) in
  let dst := (locate (workingDir self)
                ++ ["extra"; (base ++ "_" ++ str_nat (getObjId self) ++ ".fasta")%string])%list in
  w_fs w (locate (getSequenceFile self)) = Some (FS.File content) ->
  locate (getSequenceFile self) <> dst ->
  w_fs w dst <> Some FS.Dir ->
  w_fs w (locate (workingDir self) ++ ["extra"])%list = Some FS.Dir ->
  exists w',
    getLocalSequenceFile self w = (Ok (getLocalSequenceFile_extrapath self), w')
    /\ locate (getLocalSequenceFile_extrapath self) = dst
    /\ w_fs w' dst = Some (FS.File content)
    /\ (forall q, q <> dst -> w_fs w' q = w_fs w q).
Proof.
  intros base dst Hsrc Hne Hnd Hextra.
  assert (Hdst : locate (getLocalSequenceFile_extrapath self) = dst)
    by apply locate_extrapath.
  rewrite getLocalSequenceFile_eq. rewrite locate_abspath, Hdst.
  unfold FS.copyfile, FS.read_file. rewrite Hsrc.
  destruct (decide (locate (getSequenceFile self) = dst)) as [Heq|_]; [contradiction|].
  rewrite write_file_ok.
  - eexists. split; [reflexivity|]. split; [reflexivity|]. cbn [w_fs]. unfold FS.write. split.
    + case_decide; [reflexivity | contradiction].
    + intros q Hq. case_decide; [contradiction | reflexivity].
  - unfold dst. destruct (locate (workingDir self)); discriminate.
  - exact Hnd.
  - unfold dst. rewrite parent_app_two. exact Hextra.
Qed.

(** X9: when the sequence file does not exist, [getDMMArgs] and [DMMStep]
    raise [FileNotFoundError] for it; the file system is left as it was and
    no subprocess has been launched: only the three lines of
    [getLocalSequenceFile] have been printed. *)
Theorem DMMStep_missing_sequence_file (self : protocol) (w : world) :
  let extrapath := getLocalSequenceFile_extrapath self in
  let w' := {| w_fs := w_fs w;
               w_log := (w_log w ++ [Stdout "HAHA"; Stdout (abspath extrapath);
                           Stdout (abspath (PosixPath.join_sep
                                      (removelast (PosixPath.split extrapath))))])%list |} in
  w_fs w (locate (getSequenceFile self)) = None ->
  getDMMArgs self w = (Raise (FileNotFoundError (getSequenceFile self)), w')
  /\ DMMStep self w = (Raise (FileNotFoundError (getSequenceFile self)), w').
Proof.
  intros extrapath w' Hmissing.
  assert (Hseq : getLocalSequenceFile self w
                 = (Raise (FileNotFoundError (getSequenceFile self)), w')).
  { rewrite getLocalSequenceFile_eq. fold extrapath.
    unfold FS.copyfile, FS.read_file. rewrite Hmissing.
    destruct (decide _); reflexivity. }
  assert (Hargs : getDMMArgs self w
                  = (Raise (FileNotFoundError (getSequenceFile self)), w')).
  { unfold getDMMArgs. apply (bind_raise _ _ _ _ _ Hseq). }
  split; [exact Hargs|].
  unfold DMMStep. apply bind_raise. unfold DMMStep_run. apply (bind_raise _ _ _ _ _ Hargs).
Qed.

(** X10: when the predictor exits with a code other than 0, [DMMStep]
    raises the job failure with that code and the file system is exactly
    what the subprocess left: nothing is copied and nothing removed. *)
Theorem DMMStep_failed_job_no_relocation (self : protocol) (w w1 : world) (args : string) :
  let log := (w_log w1 ++ [Stdout Plugin_getCondaActivationCmd;
                           Stdout (Plugin_getProtocolActivationCommand "DMM")])%list in
  let job := RunJob (DMMStep_program) (DMMStep_args args) Plugin_DMMBinary in
  getDMMArgs self w = (Ok args, w1) ->
  exit_code log job (w_fs w1) <> 0%Z ->
  DMMStep self w
  = (Raise (CalledProcessError (exit_code log job (w_fs w1))),
     {| w_fs := tool_fs log job (w_fs w1); w_log := (log ++ [job])%list |}).
Proof.
  intros log job Hargs Hcode.
  unfold DMMStep. apply bind_raise. unfold DMMStep_run.
  rewrite (bind_ok _ _ _ _ _ Hargs). unfold bind, print, runJob. cbn [w_fs w_log].
  replace ((w_log w1 ++ [Stdout Plugin_getCondaActivationCmd])
             ++ [Stdout (Plugin_getProtocolActivationCommand "DMM")])%list with log
    by (unfold log; rewrite <- app_assoc; reflexivity).
  fold job.
  destruct (Z.eqb_spec (exit_code log job (w_fs w1)) 0) as [Hz|_]; [contradiction|].
  reflexivity.
Qed.

(** X11: when the run's extra [predictions] path exists already, as after
    an earlier [DMMStep], the step raises [FileExistsError] for it once the
    subprocess has ended, and the predictor's output directory is neither
    copied nor removed. *)
Theorem DMMStep_existing_target (self : protocol) (w w1 : world) :
  DMMStep_run self w = (Ok tt, w1) ->
  w_fs w1 (locate (DMMDir self)) = Some FS.Dir ->
  FS.exists_ (w_fs w1) (locate (_getExtraPath self "predictions")) = true ->
  DMMStep self w = (Raise (FileExistsError (_getExtraPath self "predictions")), w1).
Proof.
  intros Hrun Hsrc Hdst. unfold DMMStep. rewrite (bind_ok _ _ _ _ _ Hrun).
  unfold DMMStep_relocate, shutil_copytree, bind, get_fs, lift. cbn [w_fs].
  unfold FS.copytree. rewrite Hsrc, Hdst. reflexivity.
Qed.

(** X12: the relocation does not touch the score file that [createOutputStep]
    reads: after a successful [DMMStep] whose predictor directory does not
    hold the run's [tmp/predictions], parsing the score file gives what it
    gave when the subprocess ended. *)
Theorem DMMStep_keeps_score_file (self : protocol) (w w2 : world) :
  DMMStep self w = (Ok tt, w2) ->
  FS.under (locate (DMMDir self)) (locate (outDMMFile self)) = false ->
  exists w1,
    DMMStep_run self w = (Ok tt, w1)
    /\ w_fs w2 (locate (outDMMFile self)) = w_fs w1 (locate (outDMMFile self))
    /\ fst (parseDMMScores (outDMMFile self) w2) = fst (parseDMMScores (outDMMFile self) w1).
Proof.
  intros Hstep Hout. unfold DMMStep in Hstep.
  apply bind_ok_inv in Hstep as ([] & w1 & Hrun & Hrel).
  exists w1. split; [exact Hrun|].
  apply relocate_ok_inv in Hrel as (fsc & Hcopy & fsr & Hrm & ->).
  apply copytree_ok_inv in Hcopy as (_ & _ & ->).
  apply rmtree_ok_inv in Hrm as (_ & ->).
  assert (Hsame : w_fs {| w_fs := fun q =>
                     if FS.under (locate (DMMDir self)) q then None
                     else match FS.strip_prefix (locate (_getExtraPath self "predictions")) q with
                          | Some r => w_fs w1 (locate (DMMDir self) ++ r)%list
                          | None =>
                              if FS.above q (locate (_getExtraPath self "predictions"))
                              then match w_fs w1 q with None => Some FS.Dir | o => o end
                              else w_fs w1 q
                          end;
                   w_log := w_log w1 |} (locate (outDMMFile self))
                  = w_fs w1 (locate (outDMMFile self))).
  { cbn [w_fs]. rewrite Hout. unfold FS.above.
    rewrite locate_outDMMFile, (locate_extra self "predictions" eq_refl).
    rewrite !strip_prefix_app_same. reflexivity. }
  split; [exact Hsame|]. apply parseDMMScores_reads. exact Hsame.
Qed.

(** X13: when the score file cannot be parsed, because it is missing, is a
    directory or holds a record line that is too short, [createOutputStep]
    raises that exception before it calls any tool: nothing is converted
    and nothing written. *)
Theorem createOutputStep_unreadable_scores (self : protocol) (w : world) :
  (forall e, fst (parseDMMScores (outDMMFile self) w) = Raise e ->
             createOutputStep self w = (Raise e, w))
  /\ (w_fs w (locate (outDMMFile self)) = None ->
      createOutputStep self w = (Raise (FileNotFoundError (outDMMFile self)), w)).
Proof.
  assert (Hfail : forall e, fst (parseDMMScores (outDMMFile self) w) = Raise e ->
                            createOutputStep self w = (Raise e, w)).
  { intros e He. unfold createOutputStep. apply bind_raise.
    rewrite (surjective_pairing (parseDMMScores (outDMMFile self) w)).
    rewrite He, parseDMMScores_world. reflexivity. }
  split; [exact Hfail|]. intros Hmissing. apply Hfail.
  unfold parseDMMScores, bind, get_fs, lift, FS.read_file. cbn [w_fs fst].
  rewrite Hmissing. reflexivity.
Qed.

End Edges.

Lemma getLocalSequenceFile_copies_verbatim_witness :
  exists w',
    @getLocalSequenceFile Demo.host Demo.self Demo.w0
    = (Ok "Runs/000007_ProtDMMValidation/extra/seq_7.fasta", w')
    /\ w_fs w' (Demo.run_dir ++ ["extra"; "seq_7.fasta"])%list = Some (FS.File ">seq").
Proof.
  destruct (@getLocalSequenceFile_copies_verbatim Demo.host Demo.self Demo.w0 ">seq"
              eq_refl ltac:(discriminate) ltac:(discriminate) eq_refl)
    as (w' & Hrun & _ & Hfile & _).
  exists w'. split; [exact Hrun | exact Hfile].
Defined.

Lemma DMMStep_missing_sequence_file_witness :
  fst (@DMMStep Demo.host Demo.self Scenario.noseq_w0)
  = Raise (FileNotFoundError "/data/seq.fasta")
  /\ w_fs (snd (@DMMStep Demo.host Demo.self Scenario.noseq_w0)) = w_fs Scenario.noseq_w0.
Proof.
  destruct (@DMMStep_missing_sequence_file Demo.host Demo.self Scenario.noseq_w0 eq_refl)
    as (_ & Hstep).
  rewrite Hstep. split; reflexivity.
Defined.

Lemma DMMStep_failed_job_no_relocation_witness :
  fst (@DMMStep Scenario.failing_host Scenario.failing_self Scenario.failing_w0)
  = Raise (CalledProcessError 2).
Proof.
  destruct (@getDMMArgs Scenario.failing_host Scenario.failing_self Scenario.failing_w0)
    as [[args|e] w1] eqn:Hargs; [|vm_compute in Hargs; discriminate].
  rewrite (@DMMStep_failed_job_no_relocation Scenario.failing_host Scenario.failing_self
             Scenario.failing_w0 w1 args Hargs ltac:(discriminate)).
  reflexivity.
Defined.

Lemma DMMStep_existing_target_witness :
  fst (@DMMStep Demo.host Demo.self Scenario.rerun_w0)
  = Raise (FileExistsError "Runs/000007_ProtDMMValidation/extra/predictions")
  /\ w_fs (snd (@DMMStep Demo.host Demo.self Scenario.rerun_w0))
          ["opt"; "DMM"; "Predict_Result"; "vol1_7"; "DMM_score_w9.pdb"]
     = Some (FS.File Demo.score_file).
Proof.
  set (w1 := snd (@DMMStep_run Demo.host Demo.self Scenario.rerun_w0)).
  assert (Hrun : @DMMStep_run Demo.host Demo.self Scenario.rerun_w0 = (Ok tt, w1))
    by (vm_compute; reflexivity).
  rewrite (@DMMStep_existing_target Demo.host Demo.self Scenario.rerun_w0 w1 Hrun
             eq_refl eq_refl).
  split; reflexivity.
Defined.

Lemma DMMStep_keeps_score_file_witness :
  exists d,
    fst (@parseDMMScores Demo.host (@outDMMFile Demo.host Demo.self)
           (snd (@DMMStep Demo.host Demo.self Demo.w0))) = Ok d
    /\ d !! "A:10" = Some "0.50".
Proof.
  set (w2 := snd (@DMMStep Demo.host Demo.self Demo.w0)).
  assert (Hstep : @DMMStep Demo.host Demo.self Demo.w0 = (Ok tt, w2))
    by (vm_compute; reflexivity).
  destruct (@DMMStep_keeps_score_file Demo.host Demo.self Demo.w0 w2 Hstep eq_refl)
    as (w1 & Hrun & _ & Hparse).
  assert (Hw1 : w1 = snd (@DMMStep_run Demo.host Demo.self Demo.w0))
    by (rewrite Hrun; reflexivity).
  rewrite Hparse, Hw1.
  destruct (fst (@parseDMMScores Demo.host (@outDMMFile Demo.host Demo.self)
                   (snd (@DMMStep_run Demo.host Demo.self Demo.w0)))) as [d|e] eqn:Hd;
    [|vm_compute in Hd; discriminate].
  exists d. split; [reflexivity|].
  vm_compute in Hd. injection Hd as <-. reflexivity.
Defined.

Lemma createOutputStep_unreadable_scores_witness :
  @createOutputStep Demo.host Demo.self Demo.w0
  = (Raise (FileNotFoundError
              "/home/user/project/Runs/000007_ProtDMMValidation/tmp/predictions/DMM_score_w9.pdb"),
     Demo.w0).
Proof.
  destruct (@createOutputStep_unreadable_scores Demo.host Demo.self Demo.w0) as (_ & Hmissing).
  rewrite (Hmissing eq_refl). reflexivity.
Defined.

(** ** The output step *)

Section OutputEdges.

Context `{Host}.

(** X14: [createOutputStep] never returns.  Whatever the run and the
    state, it ends with an exception: the one of the parse when the score
    file cannot be parsed, [AttributeError] for [inputAtomStruct]
    otherwise.  The state is left as it was: no tool has been called, no
    conversion, no write and no visualiser, and no file has changed. *)
Theorem createOutputStep_never_returns (self : protocol) (w : world) :
  snd (createOutputStep self w) = w
  /\ (forall out, fst (createOutputStep self w) <> Ok out)
  /\ (forall e, fst (parseDMMScores (outDMMFile self) w) = Raise e ->
                fst (createOutputStep self w) = Raise e)
  /\ (forall scores, fst (parseDMMScores (outDMMFile self) w) = Ok scores ->
                     fst (createOutputStep self w) = Raise (AttributeError "inputAtomStruct")).
Proof.
  rewrite createOutputStep_outcome. cbn [fst snd].
  split; [reflexivity|]. split; [|split].
  - intros out. destruct (fst (parseDMMScores (outDMMFile self) w)); discriminate.
  - intros e ->. reflexivity.
  - intros scores ->. reflexivity.
Qed.

End OutputEdges.

Lemma createOutputStep_never_returns_witness :
  @createOutputStep Demo.host Demo.self Scenario.after_DMMStep
  = (Raise (AttributeError "inputAtomStruct"), Scenario.after_DMMStep).
Proof.
  destruct (@createOutputStep_never_returns Demo.host Demo.self Scenario.after_DMMStep)
    as (Hworld & _ & _ & Hparsed).
  rewrite (surjective_pairing (@createOutputStep Demo.host Demo.self Scenario.after_DMMStep)).
  rewrite Hworld, (Hparsed (<["A:11" := "0.30"]> {["A:10" := "0.50"]})); [reflexivity|].
  vm_compute. reflexivity.
Defined.

(** ** The list of GPU identifiers *)

Lemma str_split_not_nil (c : ascii) (s : string) : str_split c s <> [].
Proof.
  induction s as [|x s IH]; cbn [str_split]; [discriminate|].
  destruct (Ascii.eqb x c); [discriminate|]. destruct (str_split c s); discriminate.
Qed.

Lemma str_join_split (c : ascii) (s : string) : str_join c (str_split c s) = s.
Proof.
  induction s as [|x s IH]; [reflexivity|]. cbn [str_split].
  destruct (Ascii.eqb_spec x c) as [->|Hne].
  - pose proof (str_split_not_nil c s) as Hnil.
    destruct (str_split c s) as [|h t]; [contradiction|].
    change (str_join c ("" :: h :: t)) with ("" ++ String c (str_join c (h :: t))).
    rewrite IH. reflexivity.
  - pose proof (str_split_not_nil c s) as Hnil.
    destruct (str_split c s) as [|h t]; [contradiction|].
    destruct t as [|h' t].
    + cbn [str_join] in *. rewrite IH. reflexivity.
    + change (str_join c (String x h :: h' :: t))
        with (String x (h ++ String c (str_join c (h' :: t)))).
      change (str_join c (h :: h' :: t)) with (h ++ String c (str_join c (h' :: t))) in IH.
      rewrite IH. reflexivity.
Qed.

Lemma str_split_length (c : ascii) (s : string) :
  List.length (str_split c s) = S (count_occ ascii_dec (list_ascii_of_string s) c).
Proof.
  induction s as [|x s IH]; [reflexivity|]. cbn [str_split list_ascii_of_string count_occ].
  destruct (Ascii.eqb_spec x c) as [->|Hne].
  - destruct (ascii_dec c c); [|contradiction]. cbn [List.length]. rewrite IH. reflexivity.
  - destruct (ascii_dec x c); [contradiction|].
    pose proof (str_split_not_nil c s) as Hnil.
    destruct (str_split c s) as [|h t]; [contradiction|]. exact IH.
Qed.

Lemma str_split_parts (c : ascii) (s : string) :
  Forall (fun part => count_occ ascii_dec (list_ascii_of_string part) c = 0) (str_split c s).
Proof.
  induction s as [|x s IH]; cbn [str_split]; [repeat constructor|].
  destruct (Ascii.eqb_spec x c) as [->|Hne]; [constructor; [reflexivity | exact IH]|].
  pose proof (str_split_not_nil c s) as Hnil.
  destruct (str_split c s) as [|h t]; [contradiction|].
  inversion IH as [|? ? Hh Ht]; subst.
  constructor; [|exact Ht]. cbn [list_ascii_of_string count_occ].
  destruct (ascii_dec x c); [contradiction | exact Hh].
Qed.

Lemma str_split_plain (c : ascii) (a : string) :
  count_occ ascii_dec (list_ascii_of_string a) c = 0 -> str_split c a = [a].
Proof.
  induction a as [|x a IH]; [reflexivity|]. cbn [list_ascii_of_string count_occ str_split].
  destruct (ascii_dec x c) as [->|Hne]; [discriminate|]. intros Ha.
  destruct (Ascii.eqb_spec x c); [contradiction|]. rewrite (IH Ha). reflexivity.
Qed.

Lemma str_split_cons (c : ascii) (a rest : string) :
  count_occ ascii_dec (list_ascii_of_string a) c = 0 ->
  str_split c (a ++ String c rest) = a :: str_split c rest.
Proof.
  induction a as [|x a IH].
  - intros _. change ("" ++ String c rest) with (String c rest). cbn [str_split].
    rewrite Ascii.eqb_refl. reflexivity.
  - cbn [list_ascii_of_string count_occ].
    destruct (ascii_dec x c) as [->|Hne]; [discriminate|]. intros Ha.
    change (String x a ++ String c rest) with (String x (a ++ String c rest)).
    cbn [str_split]. destruct (Ascii.eqb_spec x c); [contradiction|].
    rewrite (IH Ha). reflexivity.
Qed.

(** X16: [getGPUIds] cuts the parameter's text at its commas and loses
    nothing: joining the identifiers with commas gives the text back, there
    is one identifier more than there are commas (so at least one, the
    empty string for an empty text), none holds a comma, and a list of
    comma-free identifiers written with commas is read back as it was. *)
Theorem getGPUIds_round_trip (gpuList : string) :
  str_join ","%char (getGPUIds gpuList) = gpuList
  /\ List.length (getGPUIds gpuList)
     = S (count_occ ascii_dec (list_ascii_of_string gpuList) ","%char)
  /\ Forall (fun id => count_occ ascii_dec (list_ascii_of_string id) ","%char = 0)
            (getGPUIds gpuList)
  /\ (forall ids,
        ids <> [] ->
        Forall (fun id => count_occ ascii_dec (list_ascii_of_string id) ","%char = 0) ids ->
        getGPUIds (str_join ","%char ids) = ids).
Proof.
  unfold getGPUIds. split; [apply str_join_split|]. split; [apply str_split_length|].
  split; [apply str_split_parts|].
  induction ids as [|a ids IH]; [congruence|]. intros _ Hall.
  inversion Hall as [|? ? Ha Hrest]; subst.
  destruct ids as [|b ids]; [apply str_split_plain; exact Ha|].
  change (str_join "," (a :: b :: ids)) with (a ++ String "," (str_join "," (b :: ids))).
  rewrite (str_split_cons _ _ _ Ha), IH; [reflexivity | discriminate | exact Hrest].
Qed.

Lemma getGPUIds_round_trip_witness :
  getGPUIds "0,1,3" = ["0"; "1"; "3"] /\ getGPUIds "" = [""].
Proof.
  destruct (getGPUIds_round_trip "") as (_ & _ & _ & Hback).
  split; [|reflexivity].
  apply (Hback ["0"; "1"; "3"]); [discriminate | repeat constructor].
Defined.

(** ** The resampling script *)

Lemma no_newline_app (a b : string) : no_newline (a ++ b) = no_newline a && no_newline b.
Proof.
  induction a as [|x a IH]; [reflexivity|].
  change (String x a ++ b) with (String x (a ++ b)). cbn [no_newline].
  rewrite IH, !andb_assoc. reflexivity.
Qed.

Lemma lines_from_line (a cur rest : string) :
  no_newline a = true ->
  lines_from cur (a ++ String LF rest) = (cur ++ a ++ String LF "") :: lines_from "" rest.
Proof.
  revert cur; induction a as [|x a IH]; intros cur Ha.
  - change ("" ++ String LF rest) with (String LF rest). cbn [lines_from].
    rewrite Ascii.eqb_refl. reflexivity.
  - cbn [no_newline] in Ha. rewrite !andb_true_iff, !negb_true_iff in Ha.
    destruct Ha as [[Hlf Hcr] Ha].
    change (String x a ++ String LF rest) with (String x (a ++ String LF rest)).
    cbn [lines_from]. rewrite Hlf, Hcr, (IH _ Ha), append_assoc. reflexivity.
Qed.

Lemma readlines_line (a rest : string) :
  no_newline a = true ->
  readlines (a ++ String LF rest) = (a ++ String LF "") :: readlines rest.
Proof. intros Ha. unfold readlines. apply (lines_from_line a "" rest Ha). Qed.

Section Script.

Context `{Host}.

(** X17: when the run's [extra] directory exists and no name involved holds
    a line break, [chimeraResampleScript] leaves in [extra/resampleVolume.cxc]
    a script of exactly five lines, [cd], [open], [vol resample], [save]
    and [exit] in this order, changes no other location, and
    [chimeraResample] runs the visualiser on that script. *)
Theorem chimeraResampleScript_five_lines (self : protocol) (inVolFile : string)
    (newSampling : Real) (outFile : string) (w : world) :
  let scriptFn := _getExtraPath self "resampleVolume.cxc" in
  let nl := String LF EmptyString in
  no_newline getcwd = true -> no_newline inVolFile = true ->
  no_newline (str_float newSampling) = true -> no_newline outFile = true ->
  w_fs w (locate scriptFn) <> Some FS.Dir ->
  w_fs w (locate (workingDir self) ++ ["extra"])%list = Some FS.Dir ->
  exists text ws,
    chimeraResampleScript self inVolFile newSampling outFile w = (Ok scriptFn, ws)
    /\ w_fs ws (locate scriptFn) = Some (FS.File text)
    /\ (forall q, q <> locate scriptFn -> w_fs ws q = w_fs w q)
    /\ w_log ws = w_log w
    /\ readlines text
       = ["cd " ++ getcwd ++ nl;
          "open " ++ inVolFile ++ nl;
          "vol resample #1 spacing " ++ str_float newSampling ++ nl;
          "save " ++ outFile ++ " model #2" ++ nl;
          "exit" ++ nl]
    /\ chimeraResample_launch self inVolFile newSampling outFile w
       = extern (RunChimeraProgram (chimeraPlugin_getProgram ++ " --nogui --silent")
                                   scriptFn getcwd) ws.
Proof.
  intros scriptFn nl Hcwd Hin Hsr Hout Hnd Hextra.
  assert (Hloc : locate scriptFn = (locate (workingDir self) ++ ["extra"; "resampleVolume.cxc"])%list)
    by (apply locate_extra; reflexivity).
  set (text := "cd " ++ getcwd ++ nl ++ "open " ++ inVolFile ++ nl
               ++ "vol resample #1 spacing " ++ str_float newSampling ++ nl
               ++ "save " ++ outFile ++ " model #2" ++ nl ++ "exit" ++ nl).
  assert (Hscript : chimeraResampleScript self inVolFile newSampling outFile w
                    = (Ok scriptFn, {| w_fs := FS.write (w_fs w) (locate scriptFn) (FS.File text);
                                       w_log := w_log w |})).
  { unfold chimeraResampleScript, bind, get_fs, lift, put_fs, ret. cbn [w_fs w_log].
    fold scriptFn nl text. rewrite write_file_ok; [reflexivity | | exact Hnd |].
    - rewrite Hloc. destruct (locate (workingDir self)); discriminate.
    - rewrite Hloc, parent_app_two. exact Hextra. }
  exists text. eexists. split; [exact Hscript|]. cbn [w_fs w_log]. unfold FS.write.
  split; [case_decide; [reflexivity | contradiction]|].
  split; [intros q Hq; case_decide; [contradiction | reflexivity]|].
  split; [reflexivity|]. split.
  - unfold text, nl.
    replace ("cd " ++ getcwd ++ String LF "" ++ "open " ++ inVolFile ++ String LF ""
             ++ "vol resample #1 spacing " ++ str_float newSampling ++ String LF ""
             ++ "save " ++ outFile ++ " model #2" ++ String LF "" ++ "exit" ++ String LF "")
      with (("cd " ++ getcwd) ++ String LF
             (("open " ++ inVolFile) ++ String LF
               (("vol resample #1 spacing " ++ str_float newSampling) ++ String LF
                 (("save " ++ outFile ++ " model #2") ++ String LF
                   ("exit" ++ String LF "")))))
      by (rewrite !append_assoc; reflexivity).
    rewrite !readlines_line;
      rewrite ?no_newline_app, ?Hcwd, ?Hin, ?Hsr, ?Hout; try reflexivity.
    rewrite !append_assoc. reflexivity.
  - unfold chimeraResample_launch. rewrite (bind_ok _ _ _ _ _ Hscript). reflexivity.
Qed.

(** X18: whatever the working directory of the subprocess, each path in
    the argument string of [getDMMArgs] denotes the file of the run it was
    built from: the local volume file behind [-m], the local copy of the
    sequence behind [-f], the run's [tmp/predictions] behind [-o]. *)
Theorem getDMMArgs_paths_absolute (self : protocol) (w w1 : world) (args : string) :
  getDMMArgs self w = (Ok args, w1) ->
  exists map_path fasta_path aux output_path,
    args = " -m " ++ map_path ++ " -f " ++ fasta_path ++ " -A " ++ aux
           ++ " -c " ++ str_float (contourLevel self) ++ " -o " ++ output_path
           ++ " -t 10 -T 10"
    /\ (forall cwd, FS.resolve cwd map_path = locate (getLocalVolumeFile self))
    /\ (forall cwd, FS.resolve cwd fasta_path = locate (getLocalSequenceFile_extrapath self))
    /\ (forall cwd, FS.resolve cwd output_path
                    = (locate (workingDir self) ++ ["tmp"; "predictions"])%list)
    /\ match af2Structure self with
       | Some f => forall cwd, FS.resolve cwd aux = locate f
       | None => aux = ""
       end.
Proof.
  assert (Habs : forall p cwd, FS.resolve cwd (abspath p) = locate p).
  { intros p cwd. unfold abspath, PosixPath.abspath.
    apply resolve_normpath. apply anchored_isabs. apply getcwd_isabs. }
  intros Hargs. unfold getDMMArgs in Hargs.
  apply bind_ok_inv in Hargs as (seq & w0 & Hseq & Hret).
  assert (Hs : seq = getLocalSequenceFile_extrapath self).
  { rewrite getLocalSequenceFile_eq in Hseq. destruct (FS.copyfile _ _ _ _ _);
      [injection Hseq as <- _; reflexivity | discriminate]. }
  subst seq. unfold ret in Hret. injection Hret as <- _.
  exists (abspath (getLocalVolumeFile self)), (abspath (getLocalSequenceFile_extrapath self)),
    (match af2Structure self with Some f => abspath f | None => "" end),
    (abspath (_getTmpPath self "predictions")).
  split; [reflexivity|]. split; [apply Habs|]. split; [apply Habs|]. split.
  - intros cwd. rewrite Habs. apply locate_tmp. reflexivity.
  - destruct (af2Structure self); [apply Habs | reflexivity].
Qed.

(** X19: the attribute file [getDMMScoreFile] names is
    [DMM_score.defattr] directly in the run directory, whatever the
    working directory is written like; it lies neither in the run's [tmp]
    nor in its [extra] directory, and is not the structure file
    [createOutputStep] names. *)
Theorem getDMMScoreFile_in_run_directory (self : protocol) :
  locate (getDMMScoreFile self)
  = (locate (workingDir self) ++ ["DMM_score.defattr"])%list
  /\ (forall c, PosixPath.proper c = true ->
                FS.under (locate (_getTmpPath self c)) (locate (getDMMScoreFile self)) = false
                /\ FS.under (locate (_getExtraPath self c)) (locate (getDMMScoreFile self))
                   = false)
  /\ locate (getDMMScoreFile self) <> locate (_getPath self "outputStructure.cif").
Proof.
  assert (Hloc : locate (getDMMScoreFile self)
                 = (locate (workingDir self) ++ ["DMM_score.defattr"])%list).
  { unfold getDMMScoreFile, _getPath. apply (locate_join _ "DMM_score.defattr" eq_refl). }
  split; [exact Hloc|]. split.
  - intros c Hc. rewrite Hloc, (locate_tmp self c Hc), (locate_extra self c Hc).
    rewrite !under_app_same. split; reflexivity.
  - rewrite Hloc. unfold _getPath. rewrite (locate_join _ "outputStructure.cif" eq_refl).
    intros Heq. apply app_inv_head in Heq. discriminate.
Qed.

End Script.

Lemma chimeraResampleScript_five_lines_witness :
  exists text ws,
    @chimeraResampleScript Demo.host Demo.self "vol.mrc" 1%Z Demo.resampled Demo.w0
    = (Ok "Runs/000007_ProtDMMValidation/extra/resampleVolume.cxc", ws)
    /\ w_fs ws (Demo.run_dir ++ ["extra"; "resampleVolume.cxc"])%list = Some (FS.File text)
    /\ List.length (readlines text) = 5.
Proof.
  destruct (@chimeraResampleScript_five_lines Demo.host Demo.self "vol.mrc" 1%Z
              Demo.resampled Demo.w0 eq_refl eq_refl eq_refl eq_refl
              ltac:(discriminate) eq_refl)
    as (text & ws & Hrun & Hfile & _ & _ & Hlines & _).
  exists text, ws. split; [exact Hrun|]. split; [exact Hfile|].
  rewrite Hlines. reflexivity.
Defined.

Lemma getDMMArgs_paths_absolute_witness :
  exists args map_path,
    fst (@getDMMArgs Demo.host Demo.self Demo.w0) = Ok args
    /\ (forall cwd, FS.resolve cwd map_path
                    = (Demo.run_dir ++ ["extra"; "vol1_7.mrc"])%list)
    /\ FS.resolve "/opt/DMM"
         "/home/user/project/Runs/000007_ProtDMMValidation/extra/vol1_7.mrc"
       = (Demo.run_dir ++ ["extra"; "vol1_7.mrc"])%list.
Proof.
  destruct (@getDMMArgs Demo.host Demo.self Demo.w0) as [[args|e] w1] eqn:Hargs;
    [|vm_compute in Hargs; discriminate].
  destruct (@getDMMArgs_paths_absolute Demo.host Demo.self Demo.w0 w1 args Hargs)
    as (m & f & a & o & _ & Hm & _).
  exists args, m. split; [reflexivity|]. split; [|reflexivity].
  intros cwd. rewrite Hm. reflexivity.
Defined.

(** ** How the steps fit together *)

Lemma write_file_no_parent (fs : FS.t) (name : string) (l : FS.loc) (a b content : string) :
  fs (l ++ [a; b])%list = None -> fs (l ++ [a])%list = None ->
  FS.write_file fs name (l ++ [a; b])%list content = Raise (FileNotFoundError name).
Proof.
  intros Hfile Hdir. unfold FS.write_file. rewrite Hfile.
  pose proof (parent_app_two l a b) as Hpar.
  destruct (l ++ [a; b])%list as [|x [|y p]] eqn:Hp.
  - destruct l; discriminate.
  - destruct l as [|? [|? ?]]; discriminate.
  - rewrite Hpar, Hdir. reflexivity.
Qed.

Section Fit.

Context `{Host}.

(** X20: [chimeraResample] polls only after a successful launch: when the
    script cannot be written because the run's [extra] directory is
    missing, it raises [FileNotFoundError] for the script without running
    the visualiser, and whatever the launch raises is raised at once,
    without a single sleep. *)
Theorem chimeraResample_no_poll_without_launch (self : protocol) (inVolFile : string)
    (newSR : Real) (outFile : string) (w : world) :
  let scriptFn := _getExtraPath self "resampleVolume.cxc" in
  chimera_importable = true ->
  (forall e w1 fuel,
     chimeraResample_launch self inVolFile newSR outFile w = (Raise e, w1) ->
     chimeraResample self fuel inVolFile newSR outFile w = (Raise e, w1))
  /\ (w_fs w (locate scriptFn) = None ->
      w_fs w (locate (workingDir self) ++ ["extra"])%list = None ->
      forall fuel,
        chimeraResample self fuel inVolFile newSR outFile w
        = (Raise (FileNotFoundError scriptFn), w)).
Proof.
  intros scriptFn Himp.
  assert (Hprop : forall e w1 fuel,
            chimeraResample_launch self inVolFile newSR outFile w = (Raise e, w1) ->
            chimeraResample self fuel inVolFile newSR outFile w = (Raise e, w1)).
  { intros e w1 fuel Hl. unfold chimeraResample. rewrite Himp.
    apply (bind_raise _ _ _ _ _ Hl). }
  split; [exact Hprop|]. intros Hfile Hdir fuel. apply Hprop.
  unfold chimeraResample_launch. apply bind_raise.
  unfold chimeraResampleScript, bind, get_fs, lift. cbn [w_fs]. fold scriptFn.
  assert (Hloc : locate scriptFn
                 = (locate (workingDir self) ++ ["extra"; "resampleVolume.cxc"])%list)
    by (apply locate_extra; reflexivity).
  rewrite Hloc in Hfile |- *. rewrite (write_file_no_parent _ _ _ _ _ _ Hfile Hdir).
  reflexivity.
Qed.

(** X21: the volume [getDMMArgs] names behind [-m] is the file the origin
    fix of [convertInputStep] writes, [extra/<volume name>.mrc] of the run;
    the start-index fix rewrites [tmp/inpVolume.mrc] in place, at another
    location. *)
Theorem convertInputStep_output_is_predictor_input (self : protocol)
    (w w' wa wa1 : world) (args : string) :
  convertInputStep self w = (Ok tt, w') ->
  getDMMArgs self wa = (Ok args, wa1) ->
  exists src mrcFile dst shifts rate map_path rest,
    w_log w' = (w_log w ++ [ImageConvert src mrcFile;
                            FixFile mrcFile mrcFile shifts rate START;
                            FixFile mrcFile dst shifts rate ORIGIN])%list
    /\ args = " -m " ++ map_path ++ rest
    /\ (forall cwd, FS.resolve cwd map_path = locate dst)
    /\ locate mrcFile = (locate (workingDir self) ++ ["tmp"; "inpVolume.mrc"])%list
    /\ locate dst
       = (locate (workingDir self) ++ ["extra"; (getVolumeName self ++ ".mrc")%string])%list
    /\ locate mrcFile <> locate dst.
Proof.
  intros Hconv Hargs.
  assert (Habs : forall p cwd, FS.resolve cwd (abspath p) = locate p).
  { intros p cwd. unfold abspath, PosixPath.abspath.
    apply resolve_normpath. apply anchored_isabs. apply getcwd_isabs. }
  assert (Hdst : locate (getLocalVolumeFile self)
                 = (locate (workingDir self)
                      ++ ["extra"; (getVolumeName self ++ ".mrc")%string])%list).
  { rewrite getVolumeName_eq. unfold getLocalVolumeFile.
    rewrite (locate_extra self); [rewrite !append_assoc; reflexivity|].
    apply numbered_file_proper; [apply basename_no_sep | reflexivity]. }
  assert (Hmrc : locate (_getTmpPath self "inpVolume.mrc")
                 = (locate (workingDir self) ++ ["tmp"; "inpVolume.mrc"])%list)
    by (apply locate_tmp; reflexivity).
  exists (vol_fileName (_getInputVolume self)), (_getTmpPath self "inpVolume.mrc"),
    (getLocalVolumeFile self), (vol_shifts (_getInputVolume self)),
    (vol_samplingRate (_getInputVolume self)), (abspath (getLocalVolumeFile self)).
  unfold getDMMArgs in Hargs. apply bind_ok_inv in Hargs as (seq & w0 & _ & Hret).
  unfold ret in Hret. injection Hret as <- _. eexists.
  split; [|split; [reflexivity|]].
  - unfold convertInputStep, bind, extern in Hconv. simpl in Hconv.
    destruct (tool_raises (w_log w) _ _); [discriminate|]. simpl in Hconv.
    destruct (tool_raises (w_log w ++ _) _ _); [discriminate|]. simpl in Hconv.
    destruct (tool_raises ((w_log w ++ _) ++ _) _ _); [discriminate|].
    injection Hconv as <-. cbn [w_log]. rewrite <- !app_assoc. reflexivity.
  - split; [intros cwd; apply Habs|]. split; [exact Hmrc|]. split; [exact Hdst|].
    rewrite Hmrc, Hdst. intros Heq. apply app_inv_head in Heq. discriminate.
Qed.

Lemma contains_app_l (sub a s : string) :
  contains sub s = true -> contains sub (a ++ s) = true.
Proof.
  rewrite !contains_spec. intros (pre & post & ->).
  exists (a ++ pre), post. rewrite append_assoc. reflexivity.
Qed.

Lemma contains_app_r (sub s b : string) :
  contains sub s = true -> contains sub (s ++ b) = true.
Proof.
  rewrite !contains_spec. intros (pre & post & ->).
  exists pre, (post ++ b). rewrite !append_assoc. reflexivity.
Qed.

(** X22: the launcher's name is looked for in the whole argument string:
    when a path of the run holds it, as the volume path does for a run
    directory of that name, the string [getDMMArgs] built is passed to the
    subprocess as it is, without ['-p <binary>'] in front. *)
Theorem DMMStep_args_launcher_in_run_path (self : protocol) (w w1 : world) (args : string) :
  getDMMArgs self w = (Ok args, w1) ->
  launcher_detected (abspath (getLocalVolumeFile self))
  \/ launcher_detected (abspath (_getTmpPath self "predictions")) ->
  DMMStep_args args = args
  /\ exists program,
       List.last (w_log (snd (DMMStep_run self w))) (Stdout "")
       = RunJob program args Plugin_DMMBinary.
Proof.
  intros Hargs Hpath.
  assert (Hdet : contains launcher args = true).
  { unfold getDMMArgs in Hargs.
    apply bind_ok_inv in Hargs as (seq & w0 & _ & Hret).
    unfold ret in Hret. injection Hret as <- _.
    change (contains launcher
              (" -m " ++ abspath (getLocalVolumeFile self)
               ++ " -f " ++ abspath seq
               ++ " -A " ++ match af2Structure self with
                            | Some f => abspath f
                            | None => ""
                            end
               ++ " -c " ++ str_float (contourLevel self)
               ++ " -o " ++ abspath (_getTmpPath self "predictions")
               ++ " -t 10 -T 10") = true).
    destruct Hpath as [Hp | Hp]; apply contains_spec in Hp.
    - apply contains_app_l, contains_app_r. exact Hp.
    - do 9 apply contains_app_l. apply contains_app_r. exact Hp. }
  assert (Hsame : DMMStep_args args = args).
  { unfold DMMStep_args. rewrite Hdet. reflexivity. }
  split; [exact Hsame|]. exists DMMStep_program.
  unfold DMMStep_run. rewrite (bind_ok _ _ _ _ _ Hargs).
  unfold bind, print, runJob. cbn [w_fs w_log]. rewrite Hsame.
  destruct (exit_code _ _ _ =? 0)%Z; cbn [snd w_log]; apply last_last.
Qed.

End Fit.

Lemma chimeraResample_no_poll_without_launch_witness :
  @chimeraResample Demo.host Demo.self 5 "vol.mrc" 1%Z Demo.resampled Scenario.bare_run_w0
  = (Raise (FileNotFoundError "Runs/000007_ProtDMMValidation/extra/resampleVolume.cxc"),
     Scenario.bare_run_w0).
Proof.
  destruct (@chimeraResample_no_poll_without_launch Demo.host Demo.self "vol.mrc" 1%Z
              Demo.resampled Scenario.bare_run_w0 eq_refl) as (_ & Hmissing).
  apply (Hmissing eq_refl eq_refl 5).
Defined.

Lemma convertInputStep_output_is_predictor_input_witness :
  exists map_path,
    forall cwd, FS.resolve cwd map_path = (Demo.run_dir ++ ["extra"; "vol1_7.mrc"])%list.
Proof.
  destruct (@convertInputStep Demo.host Demo.self Demo.w0) as [[[]|e] w'] eqn:Hconv;
    [|vm_compute in Hconv; discriminate].
  destruct (@getDMMArgs Demo.host Demo.self Demo.w0) as [[args|e] w1] eqn:Hargs;
    [|vm_compute in Hargs; discriminate].
  destruct (@convertInputStep_output_is_predictor_input Demo.host Demo.self
              Demo.w0 w' Demo.w0 w1 args Hconv Hargs)
    as (src & mrc & dst & shifts & rate & m & rest & _ & _ & Hm & _ & Hdst & _).
  exists m. intros cwd. rewrite Hm, Hdst. reflexivity.
Defined.

Lemma DMMStep_args_launcher_in_run_path_witness :
  exists args,
    fst (@getDMMArgs Demo.host Scenario.launcher_self Scenario.launcher_w0) = Ok args
    /\ @DMMStep_args Demo.host args = args.
Proof.
  destruct (@getDMMArgs Demo.host Scenario.launcher_self Scenario.launcher_w0)
    as [[args|e] w1] eqn:Hargs; [|vm_compute in Hargs; discriminate].
  destruct (@DMMStep_args_launcher_in_run_path Demo.host Scenario.launcher_self
              Scenario.launcher_w0 w1 args Hargs) as (Hsame & _).
  - left. exists "/home/user/project/Runs/", "/extra/vol1_7.mrc". reflexivity.
  - exists args. split; [reflexivity | exact Hsame].
Defined.
